(** * DS1216Clock: a bit-banged driver for the DS1216 real-time clock

    Shallow embedding of [DS1216Clock.ino].  Bytes ([byte], i.e. [uint8_t])
    are integers in [0, 256) with the conversion to [byte] written out as
    [to_byte]; the Arduino pin primitives act on an explicit [world] that
    records every pin operation issued, the levels the chip will present on
    the data line, and the characters sent to the serial monitor. *)

From Stdlib Require Import ZArith Lia String Ascii.
From stdpp Require Import base list.

Local Open Scope Z_scope.

(** ** Bytes *)

(** Conversion of an [int] value to [byte]: reduction modulo 2^8. *)
Definition to_byte (z : Z) : Z := z mod 256.

Definition is_byte (z : Z) : Prop := 0 <= z < 256.

(** The two 4-bit halves of a byte. *)
Definition hi_nibble (b : Z) : Z := b / 16.
Definition lo_nibble (b : Z) : Z := b mod 16.

(** ** BCD conversion functions *)

(** [byte decimal2BCD(byte dec) { return (dec/10)*16 + (dec%10); }]
    The operands are promoted to [int]; for a byte argument the intermediate
    value is at most 25*16+9, so the only wrap-around is the conversion of
    the result to [byte].  The argument is non-negative, so C's truncating
    [/] and [%] are [Z.div] and [Z.modulo]. *)
Definition decimal2BCD (dec : Z) : Z := to_byte ((dec / 10) * 16 + dec mod 10).

(** [byte BCD2Decimal(byte bcd) { return (bcd/16) * 10 + bcd%16; }] *)
Definition BCD2Decimal (bcd : Z) : Z := to_byte ((bcd / 16) * 10 + bcd mod 16).

(** [char* BCD2ASCII(char *str, byte bcd)]: [str[0] = bcd/16 + '0'],
    [str[1] = bcd%16 + '0'], [str[2] = '\0'].  The result is the C string
    held in [str], that is the two characters before the terminator. *)
Definition char_of (z : Z) : ascii := ascii_of_N (Z.to_N (to_byte z)).

Definition BCD2ASCII (bcd : Z) : string :=
  String (char_of (bcd / 16 + 48)) (String (char_of (bcd mod 16 + 48)) EmptyString).

(** ** The board: pins, levels and the observable world *)

(** Pin numbers ([const int] in the sketch). *)
Definition dsDQ0pin : Z := 4.
Definition ds_WEpin : Z := 5.
Definition ds_OEpin : Z := 6.
Definition ds_CEpin : Z := 7.

(** Index of the 1-byte registers on the DS1216. *)
Definition dsSubSecondRegister : nat := 0.
Definition dsSecondsRegister : nat := 1.
Definition dsMinutesRegister : nat := 2.
Definition dsHourRegister : nat := 3.
Definition dsDayRegister : nat := 4.
Definition dsDateRegister : nat := 5.
Definition dsMonthRegister : nat := 6.
Definition dsYearRegister : nat := 7.

(** Control bits in the registers. *)
Definition ds_OSCbit : Z := 0x20.
Definition ds1224bit : Z := 0x80.
Definition dsAMPMbit : Z := 0x20.

Inductive level := LOW | HIGH.
Inductive pin_mode := INPUT | OUTPUT.

(** One call of an Arduino pin primitive.  [DigitalRead] carries the level
    that was sampled. *)
Inductive event :=
| PinMode (pin : Z) (m : pin_mode)
| DigitalWrite (pin : Z) (v : level)
| DigitalRead (pin : Z) (v : level).

(** The world the sketch runs in: the levels the chip presents on the data
    line at the coming samples (a line that is no longer driven reads
    [LOW]), the pin operations issued so far, oldest first, and the text
    sent to the serial monitor. *)
Record world := World {
  dq_in : list level;
  trace : list event;
  serial : string
}.

(** The result of running a piece of the sketch: it returns a value in a new
    world, or it reads or writes outside an array; [Fault] keeps the world
    as it was when that happened. *)
Inductive outcome (A : Type) :=
| Ret (a : A) (w : world)
| Fault (w : world).
Arguments Ret {A} a w.
Arguments Fault {A} w.

Definition M (A : Type) : Type := world -> outcome A.

Definition ret {A} (a : A) : M A := fun w => Ret a w.

Definition bind {A B} (c : M A) (f : A -> M B) : M B :=
  fun w => match c w with
           | Ret a w' => f a w'
           | Fault w' => Fault w'
           end.

Notation "x <- c ;; k" := (bind c (fun x => k))
  (at level 100, c at next level, right associativity).
Notation "c ;; k" := (bind c (fun _ => k))
  (at level 100, right associativity).

(** The world an outcome ends in. *)
Definition final {A} (o : outcome A) : world :=
  match o with Ret _ w => w | Fault w => w end.

(** *** Arduino primitives *)

Definition level_of_bool (b : bool) : level := if b then HIGH else LOW.
Definition Z_of_level (v : level) : Z := match v with LOW => 0 | HIGH => 1 end.
Definition bool_of_level (v : level) : bool :=
  match v with LOW => false | HIGH => true end.

(** Conversion of an integer to [bool]: non-zero is [true]. *)
Definition bool_of_Z (z : Z) : bool := negb (z =? 0).

Definition log (e : event) (w : world) : world :=
  {| dq_in := dq_in w; trace := trace w ++ [e]; serial := serial w |}.

Definition pinMode (pin : Z) (m : pin_mode) : M unit :=
  fun w => Ret tt (log (PinMode pin m) w).

Definition digitalWrite (pin : Z) (v : level) : M unit :=
  fun w => Ret tt (log (DigitalWrite pin v) w).

Definition digitalRead (pin : Z) : M level :=
  fun w => let v := hd LOW (dq_in w) in
           Ret v {| dq_in := tl (dq_in w);
                    trace := trace w ++ [DigitalRead pin v];
                    serial := serial w |}.

Definition Serial_print (s : string) : M unit :=
  fun w => Ret tt {| dq_in := dq_in w; trace := trace w;
                     serial := (serial w ++ s)%string |}.

(** [Serial.println()] sends a carriage return and a line feed. *)
Definition CRLF : string :=
  String (ascii_of_nat 13) (String (ascii_of_nat 10) EmptyString).
Definition Serial_println : M unit := Serial_print CRLF.

(** *** Arrays *)

(** [a[i]] as an rvalue and [a[i] = v]: outside the array the behaviour is
    undefined, which is a [Fault]. *)
Definition arr_get {A} (a : list A) (i : nat) : M A :=
  fun w => match a !! i with
           | Some v => Ret v w
           | None => Fault w
           end.

Definition arr_set {A} (a : list A) (i : nat) (v : A) : M (list A) :=
  fun w => if decide (i < length a)%nat then Ret (<[i:=v]> a) w else Fault w.

(** ** Supporting functions of the sketch *)

Definition dsChipEnable (enableChip : bool) : M unit :=
  if enableChip
  then digitalWrite ds_CEpin LOW
  else digitalWrite ds_CEpin HIGH.

Definition dsWriteBit (bitLevel : bool) : M unit :=
  digitalWrite dsDQ0pin (level_of_bool bitLevel) ;;
  digitalWrite ds_WEpin LOW ;;
  digitalWrite ds_WEpin HIGH.

Definition dsSendByte (n : Z) : M unit :=
  dsChipEnable true ;;
  pinMode dsDQ0pin OUTPUT ;;
  dsWriteBit (bool_of_Z (Z.land n 0x01)) ;;
  dsWriteBit (bool_of_Z (Z.land n 0x02)) ;;
  dsWriteBit (bool_of_Z (Z.land n 0x04)) ;;
  dsWriteBit (bool_of_Z (Z.land n 0x08)) ;;
  dsWriteBit (bool_of_Z (Z.land n 0x10)) ;;
  dsWriteBit (bool_of_Z (Z.land n 0x20)) ;;
  dsWriteBit (bool_of_Z (Z.land n 0x40)) ;;
  dsWriteBit (bool_of_Z (Z.land n 0x80)) ;;
  dsChipEnable false.

Definition dsReadBit : M Z :=
  digitalWrite ds_OEpin LOW ;;
  b <- digitalRead dsDQ0pin ;;
  digitalWrite ds_OEpin HIGH ;;
  ret (to_byte (Z_of_level b)).

(** [b |= dsReadBit() << k]: the shift and the or are done on [int]s and the
    result is converted back to [byte]. *)
Definition or_shifted (b r : Z) (k : Z) : Z := to_byte (Z.lor b (Z.shiftl r k)).

Definition dsReadByte : M Z :=
  pinMode dsDQ0pin INPUT ;;
  dsChipEnable true ;;
  b <- dsReadBit ;;
  r <- dsReadBit ;; let b := or_shifted b r 1 in
  r <- dsReadBit ;; let b := or_shifted b r 2 in
  r <- dsReadBit ;; let b := or_shifted b r 3 in
  r <- dsReadBit ;; let b := or_shifted b r 4 in
  r <- dsReadBit ;; let b := or_shifted b r 5 in
  r <- dsReadBit ;; let b := or_shifted b r 6 in
  r <- dsReadBit ;; let b := or_shifted b r 7 in
  dsChipEnable false ;;
  ret b.

(** [void dsReadRegisters(byte dsRegister[])]: the array is updated in place;
    the model returns its new contents. *)
Definition dsReadRegisters (dsRegister : list Z) : M (list Z) :=
  v <- dsReadByte ;; dsRegister <- arr_set dsRegister 0 v ;;
  v <- dsReadByte ;; dsRegister <- arr_set dsRegister 1 v ;;
  v <- dsReadByte ;; dsRegister <- arr_set dsRegister 2 v ;;
  v <- dsReadByte ;; dsRegister <- arr_set dsRegister 3 v ;;
  v <- dsReadByte ;; dsRegister <- arr_set dsRegister 4 v ;;
  v <- dsReadByte ;; dsRegister <- arr_set dsRegister 5 v ;;
  v <- dsReadByte ;; dsRegister <- arr_set dsRegister 6 v ;;
  v <- dsReadByte ;; dsRegister <- arr_set dsRegister 7 v ;;
  ret dsRegister.

Definition dsSerialPrintDate (dsRegister : list Z) : M unit :=
  Serial_print "20" ;;
  r <- arr_get dsRegister dsYearRegister ;; Serial_print (BCD2ASCII r) ;;
  Serial_print "-" ;;
  r <- arr_get dsRegister dsMonthRegister ;; Serial_print (BCD2ASCII r) ;;
  Serial_print "-" ;;
  r <- arr_get dsRegister dsDateRegister ;; Serial_print (BCD2ASCII r).

Definition dsSerialPrintTime (dsRegister : list Z) : M unit :=
  r <- arr_get dsRegister dsHourRegister ;; Serial_print (BCD2ASCII r) ;;
  Serial_print ":" ;;
  r <- arr_get dsRegister dsMinutesRegister ;; Serial_print (BCD2ASCII r) ;;
  Serial_print ":" ;;
  r <- arr_get dsRegister dsSecondsRegister ;; Serial_print (BCD2ASCII r) ;;
  Serial_print "." ;;
  r <- arr_get dsRegister dsSubSecondRegister ;; Serial_print (BCD2ASCII r).

Definition dayStrings : list string :=
  ["Monday"; "Tuesday"; "Wednesday"; "Thursday"; "Friday"; "Saturday"; "Sunday"]%string.

(** [int dayIndex = dsRegister[dsDayRegister] & 0x0f;] *)
Definition dayIndex_of (day : Z) : Z := Z.land day 0x0f.

Definition dsSerialPrintRegisters (dsRegister : list Z) : M unit :=
  r <- arr_get dsRegister dsDayRegister ;;
  let dayIndex := dayIndex_of r in
  s <- arr_get dayStrings (Z.to_nat dayIndex) ;; Serial_print s ;;
  Serial_print " " ;;
  dsSerialPrintDate dsRegister ;;
  Serial_print " " ;;
  dsSerialPrintTime dsRegister ;;
  Serial_println.

Definition dsSendCodes : M unit :=
  dsChipEnable true ;;
  pinMode dsDQ0pin INPUT ;;
  temp <- dsReadBit ;;
  dsChipEnable false ;;
  dsSendByte 0xC5 ;;
  dsSendByte 0x3A ;;
  dsSendByte 0xA3 ;;
  dsSendByte 0x5C ;;
  dsSendByte 0xC5 ;;
  dsSendByte 0x3A ;;
  dsSendByte 0xA3 ;;
  dsSendByte 0x5C.

(** The local array [byte reg[8]] of [dsWriteRegisters] after its eight
    assignments.  The array is uninitialised and every slot is assigned
    through a register index constant, all below 8; the model starts from
    zeros.  [year] is an [int]: [year % 100] is C's truncating remainder and
    its value is converted to [byte] when passed to [decimal2BCD]; the other
    parameters are [byte]s, which arrive as values in [0, 256). *)
Definition dsWriteRegisters_reg
    (year month day dow hours minutes seconds : Z) : list Z :=
  let reg := replicate 8 0 in
  let reg := <[dsSubSecondRegister := 0]> reg in
  let reg := <[dsSecondsRegister := decimal2BCD seconds]> reg in
  let reg := <[dsMinutesRegister := decimal2BCD minutes]> reg in
  let reg := <[dsHourRegister := decimal2BCD hours]> reg in
  let reg := <[dsDayRegister := decimal2BCD dow]> reg in
  let reg := <[dsDateRegister := decimal2BCD day]> reg in
  let reg := <[dsMonthRegister := decimal2BCD month]> reg in
  let reg := <[dsYearRegister := decimal2BCD (to_byte (Z.rem year 100))]> reg in
  reg.

Definition dsWriteRegisters
    (year month day dow hours minutes seconds : Z) : M unit :=
  let reg := dsWriteRegisters_reg year month day dow hours minutes seconds in
  r <- arr_get reg 0 ;; dsSendByte r ;;
  r <- arr_get reg 1 ;; dsSendByte r ;;
  r <- arr_get reg 2 ;; dsSendByte r ;;
  r <- arr_get reg 3 ;; dsSendByte r ;;
  r <- arr_get reg 4 ;; dsSendByte r ;;
  r <- arr_get reg 5 ;; dsSendByte r ;;
  r <- arr_get reg 6 ;; dsSendByte r ;;
  r <- arr_get reg 7 ;; dsSendByte r.

(** [byte dsRegisters[8];] is uninitialised; [dsReadRegisters] assigns every
    slot before any is read, and the model starts from zeros. *)
Definition dsReadAndPrintTime : M unit :=
  let dsRegisters := replicate 8 0 in
  dsSendCodes ;;
  dsRegisters <- dsReadRegisters dsRegisters ;;
  dsSerialPrintRegisters dsRegisters.

(** ** Vocabulary of the statements *)

(** The level the chip presents at the [i]-th coming sample, and [n]
    consecutive samples from the [i]-th on. *)
Definition sample (w : world) (i : nat) : level := default LOW (dq_in w !! i).
Definition samples (w : world) (i n : nat) : list level := sample w <$> seq i n.

(** The world after [k] samples were taken, the pin operations [evs] were
    issued and [out] was printed. *)
Definition advance (k : nat) (evs : list event) (out : string) (w : world) : world :=
  {| dq_in := drop k (dq_in w);
     trace := trace w ++ evs;
     serial := (serial w ++ out)%string |}.

(** The level an output pin is left at by a sequence of pin operations: the
    last level written to it, if any. *)
Definition pin_level (pin : Z) (tr : list event) : option level :=
  fold_left (fun acc e =>
               match e with
               | DigitalWrite p v => if p =? pin then Some v else acc
               | _ => acc
               end) tr None.

(** The transport operations of the protocol description, with the pin
    operations each one stands for. *)
Inductive transport_op :=
| ThrowawayBitRead (v : level)
| SendByte (n : Z)
| ReceiveByte (bits : list level).

(** Write one bit: drive the data line, pulse write-enable low then high. *)
Definition write_bit_events (b : bool) : list event :=
  [DigitalWrite dsDQ0pin (level_of_bool b);
   DigitalWrite ds_WEpin LOW; DigitalWrite ds_WEpin HIGH].

(** Read one bit: output-enable low, sample the data line, output-enable
    high. *)
Definition read_bit_events (v : level) : list event :=
  [DigitalWrite ds_OEpin LOW; DigitalRead dsDQ0pin v; DigitalWrite ds_OEpin HIGH].

Definition op_events (o : transport_op) : list event :=
  match o with
  | ThrowawayBitRead v =>
      [DigitalWrite ds_CEpin LOW; PinMode dsDQ0pin INPUT]
        ++ read_bit_events v ++ [DigitalWrite ds_CEpin HIGH]
  | SendByte n =>
      [DigitalWrite ds_CEpin LOW; PinMode dsDQ0pin OUTPUT]
        ++ flat_map (fun i => write_bit_events (Z.testbit n i)) [0; 1; 2; 3; 4; 5; 6; 7]
        ++ [DigitalWrite ds_CEpin HIGH]
  | ReceiveByte bits =>
      [PinMode dsDQ0pin INPUT; DigitalWrite ds_CEpin LOW]
        ++ flat_map read_bit_events bits
        ++ [DigitalWrite ds_CEpin HIGH]
  end.

(** The value of a sequence of bits received least significant bit first. *)
Definition byte_of_bits (bits : list level) : Z :=
  fold_right (fun v acc => Z_of_level v + 2 * acc) 0 bits.

(** The 64-bit code of the datasheet. *)
Definition WakeCode : list Z := [0xC5; 0x3A; 0xA3; 0x5C; 0xC5; 0x3A; 0xA3; 0x5C].

Definition wake_ops (w : world) : list transport_op :=
  ThrowawayBitRead (sample w 0) :: (SendByte <$> WakeCode).

(** The bits of the [i]-th register byte of a read cycle: the sample taken
    by the wake sequence comes first, then eight samples per register. *)
Definition register_bits (w : world) (i : nat) : list level := samples w (1 + 8 * i) 8.

Definition received_registers (w : world) : list Z :=
  (fun i => byte_of_bits (register_bits w i)) <$> seq 0 8.

Definition read_cycle_ops (w : world) : list transport_op :=
  wake_ops w ++ ((fun i => ReceiveByte (register_bits w i)) <$> seq 0 8).

(** The bits of a register byte as the chip shifts them out, least
    significant first, and the data line of a chip that answers a read
    cycle with [image]: the level [v] met by the wake sequence's read, then
    the bits of each register in turn. *)
Definition bits_of_byte (b : Z) : list level :=
  (fun i => level_of_bool (Z.testbit b (Z.of_nat i))) <$> seq 0 8.

Definition chip_reply (v : level) (image : list Z) : list level :=
  v :: flat_map bits_of_byte image.

(** The register image of the end-to-end scenario. *)
Definition example_image : list Z :=
  [0x00; 0x27; 0x31; 0x15; 0x07; 0x19; 0x02; 0x20].

(** ** The register codec of the design description *)

(** Modelled from the spec: the sketch has no structured time value and no
    decoding routine (it prints the registers through [BCD2ASCII], and
    [BCD2Decimal] is never called).  [CalendarTime] is the decoded value of
    the description, with the fields it lists; [decode] applies
    [BCD2Decimal] to each register under the index constants, the day of the
    week being taken from the low four bits of its register. *)
Record CalendarTime := {
  ct_year : Z;
  ct_month : Z;
  ct_date : Z;
  ct_dow : Z;
  ct_hour : Z;
  ct_minute : Z;
  ct_second : Z;
  ct_subsecond : Z
}.

Definition reg_at (reg : list Z) (i : nat) : Z := default 0 (reg !! i).

Definition decode (reg : list Z) : CalendarTime :=
  {| ct_year := BCD2Decimal (reg_at reg dsYearRegister);
     ct_month := BCD2Decimal (reg_at reg dsMonthRegister);
     ct_date := BCD2Decimal (reg_at reg dsDateRegister);
     ct_dow := BCD2Decimal (Z.land (reg_at reg dsDayRegister) 0x0f);
     ct_hour := BCD2Decimal (reg_at reg dsHourRegister);
     ct_minute := BCD2Decimal (reg_at reg dsMinutesRegister);
     ct_second := BCD2Decimal (reg_at reg dsSecondsRegister);
     ct_subsecond := BCD2Decimal (reg_at reg dsSubSecondRegister) |}.

(** Encoding is what [dsWriteRegisters] does: it has no parameter for the
    sub-second field. *)
Definition encode (ct : CalendarTime) : list Z :=
  dsWriteRegisters_reg (ct_year ct) (ct_month ct) (ct_date ct) (ct_dow ct)
    (ct_hour ct) (ct_minute ct) (ct_second ct).

(** The documented chip ranges. *)
Definition in_chip_ranges (ct : CalendarTime) : Prop :=
  0 <= ct_year ct <= 99 /\ 1 <= ct_month ct <= 12 /\ 1 <= ct_date ct <= 31
  /\ 1 <= ct_dow ct <= 7 /\ 0 <= ct_hour ct <= 23 /\ 0 <= ct_minute ct <= 59
  /\ 0 <= ct_second ct <= 59 /\ 0 <= ct_subsecond ct <= 99.

Definition with_subsecond (s : Z) (ct : CalendarTime) : CalendarTime :=
  {| ct_year := ct_year ct; ct_month := ct_month ct; ct_date := ct_date ct;
     ct_dow := ct_dow ct; ct_hour := ct_hour ct; ct_minute := ct_minute ct;
     ct_second := ct_second ct; ct_subsecond := s |}.

(** The value of the write-then-read scenario. *)
Definition example_time : CalendarTime :=
  {| ct_year := 25; ct_month := 12; ct_date := 31; ct_dow := 3;
     ct_hour := 9; ct_minute := 5; ct_second := 0; ct_subsecond := 0 |}.

(** A computation that leaves the pins and the data line alone. *)
Definition quiet {A} (c : M A) : Prop :=
  forall w, trace (final (c w)) = trace w /\ dq_in (final (c w)) = dq_in w.

(** ** The entry points of the sketch *)

(** [delay(ms)] and [Serial.begin(baud)]: the world has no clock and no
    serial configuration, so neither changes it. *)
Definition delay (ms : Z) : M unit := ret tt.
Definition Serial_begin (baud : Z) : M unit := ret tt.

(** [void setup()].  [SETDATETIME] is defined as 0, so the block that sets
    the date and time is not part of the compiled sketch.
    [Serial.println(s)] sends [s] and then the line end. *)
Definition setup : M unit :=
  pinMode ds_CEpin OUTPUT ;;
  pinMode ds_OEpin OUTPUT ;;
  pinMode ds_WEpin OUTPUT ;;
  digitalWrite ds_CEpin HIGH ;;
  digitalWrite ds_OEpin HIGH ;;
  digitalWrite ds_WEpin HIGH ;;
  pinMode dsDQ0pin OUTPUT ;;
  Serial_begin 9600 ;;
  delay 100 ;;
  Serial_print "Starting DS1216." ;; Serial_println.

(** [void loop()], and the first [n] rounds of the run-time calling it over
    and over. *)
Definition loop : M unit :=
  dsReadAndPrintTime ;;
  delay 300.

Fixpoint loops (n : nat) : M unit :=
  match n with
  | O => ret tt
  | S n => loop ;; loops n
  end.

(** ** Observers of a pin trace *)

(** The pin operations a computation issues when started in [w]. *)
Definition issued {A} (c : M A) (w : world) : list event :=
  drop (length (trace w)) (trace (final (c w))).

(** The bits the chip latches: the level of the data line at each falling
    edge of write-enable, [dq] being the level the line is at before the
    trace. *)
Fixpoint latched_from (dq : level) (tr : list event) : list level :=
  match tr with
  | [] => []
  | DigitalWrite pin v :: tr' =>
      if pin =? dsDQ0pin then latched_from v tr'
      else if pin =? ds_WEpin
           then match v with
                | LOW => dq :: latched_from dq tr'
                | HIGH => latched_from dq tr'
                end
           else latched_from dq tr'
  | _ :: tr' => latched_from dq tr'
  end.

(** The control lines and the direction of the data line, and the
    discipline the notes in the sketch ask for: the data line is sampled
    only as an input, under chip-enable and output-enable; it is driven only
    as an output; a write pulse starts only under chip-enable with the data
    line an output and output-enable off.  [line_step] is [None] when an
    operation breaks it. *)
Record lines := Lines {
  ce_line : level;
  oe_line : level;
  we_line : level;
  dq_dir : pin_mode
}.

Definition is_low (v : level) : bool := match v with LOW => true | HIGH => false end.
Definition is_input (m : pin_mode) : bool := match m with INPUT => true | OUTPUT => false end.

Definition line_step (s : lines) (e : event) : option lines :=
  match e with
  | PinMode pin m =>
      if pin =? dsDQ0pin
      then Some (Lines (ce_line s) (oe_line s) (we_line s) m)
      else Some s
  | DigitalWrite pin v =>
      if pin =? ds_CEpin then Some (Lines v (oe_line s) (we_line s) (dq_dir s))
      else if pin =? ds_OEpin then
        match v with
        | HIGH => Some (Lines (ce_line s) HIGH (we_line s) (dq_dir s))
        | LOW =>
            if is_low (ce_line s) && is_input (dq_dir s) && negb (is_low (we_line s))
            then Some (Lines (ce_line s) LOW (we_line s) (dq_dir s))
            else None
        end
      else if pin =? ds_WEpin then
        match v with
        | HIGH => Some (Lines (ce_line s) (oe_line s) HIGH (dq_dir s))
        | LOW =>
            if is_low (ce_line s) && negb (is_input (dq_dir s))
               && negb (is_low (oe_line s))
            then Some (Lines (ce_line s) (oe_line s) LOW (dq_dir s))
            else None
        end
      else if pin =? dsDQ0pin then
        if is_input (dq_dir s) then None else Some s
      else Some s
  | DigitalRead pin v =>
      if pin =? dsDQ0pin
      then if is_low (ce_line s) && is_low (oe_line s) && is_input (dq_dir s)
           then Some s else None
      else Some s
  end.

Fixpoint run_lines (s : lines) (tr : list event) : option lines :=
  match tr with
  | [] => Some s
  | e :: tr' =>
      match line_step s e with
      | Some s' => run_lines s' tr'
      | None => None
      end
  end.

(** The three control lines are at rest: all high. *)
Definition idle (s : lines) : Prop :=
  ce_line s = HIGH /\ oe_line s = HIGH /\ we_line s = HIGH.

(** A computation whose pin operations are those of a sequence of transport
    operations, whether it returns or not. *)
Definition transports {A} (c : M A) : Prop :=
  forall w, exists ops, trace (final (c w)) = trace w ++ flat_map op_events ops.

(** ** Observers of bytes and characters *)

(** The character of a decimal digit, and the test for such a character. *)
Definition digit_char (d : Z) : ascii := ascii_of_N (Z.to_N (48 + d)).

Definition is_digit (c : ascii) : bool :=
  (48 <=? N_of_ascii c)%N && (N_of_ascii c <=? 57)%N.

Fixpoint all_digits (s : string) : bool :=
  match s with
  | EmptyString => true
  | String c s' => is_digit c && all_digits s'
  end.

(** Packed BCD: a byte whose two nibbles are decimal digits. *)
Definition valid_bcd (b : Z) : Prop :=
  is_byte b /\ hi_nibble b <= 9 /\ lo_nibble b <= 9.

(** ** Facts about the BCD codec *)

Lemma to_byte_small z : is_byte z -> to_byte z = z.
Proof. unfold is_byte, to_byte. intros H. apply Z.mod_small. lia. Qed.

Lemma to_byte_is_byte z : is_byte (to_byte z).
Proof. unfold is_byte, to_byte. apply Z.mod_pos_bound. lia. Qed.

(** A byte is determined by its two nibbles. *)
Lemma nibbles_pack q r :
  0 <= r < 16 -> hi_nibble (q * 16 + r) = q /\ lo_nibble (q * 16 + r) = r.
Proof.
  intros Hr. unfold hi_nibble, lo_nibble. split.
  - symmetry. apply (Z.div_unique _ 16 q r); lia.
  - symmetry. apply (Z.mod_unique _ 16 q r); lia.
Qed.

Lemma digits_pack q r :
  0 <= r < 10 -> (q * 10 + r) / 10 = q /\ (q * 10 + r) mod 10 = r.
Proof.
  intros Hr. split.
  - symmetry. apply (Z.div_unique _ 10 q r); lia.
  - symmetry. apply (Z.mod_unique _ 10 q r); lia.
Qed.

(** Below 160 the encoder does not wrap: the tens go to the high nibble and
    the units to the low nibble. *)
Lemma decimal2BCD_nibbles dec :
  0 <= dec < 160 ->
  hi_nibble (decimal2BCD dec) = dec / 10 /\ lo_nibble (decimal2BCD dec) = dec mod 10.
Proof.
  intros Hd. unfold decimal2BCD.
  assert (Hr : 0 <= dec mod 10 < 10) by (apply Z.mod_pos_bound; lia).
  assert (Hq : 0 <= dec / 10 < 16).
  { split; [apply Z.div_pos; lia | apply Z.div_lt_upper_bound; lia]. }
  rewrite to_byte_small by (unfold is_byte; lia).
  apply nibbles_pack. lia.
Qed.

(** From 160 on the product [(dec/10)*16] exceeds a byte and the result is
    the encoding of [dec - 160]. *)
Lemma decimal2BCD_wraps dec :
  160 <= dec < 256 -> decimal2BCD dec = decimal2BCD (dec - 160).
Proof.
  intros Hd. unfold decimal2BCD, to_byte.
  replace dec with ((dec - 160) + 16 * 10) at 1 2 by lia.
  rewrite Z.div_add by lia.
  replace ((dec - 160 + 16 * 10) mod 10) with ((dec - 160) mod 10)
    by (symmetry; apply Z.mod_add; lia).
  replace (((dec - 160) / 10 + 16) * 16 + (dec - 160) mod 10)
    with (((dec - 160) / 10 * 16 + (dec - 160) mod 10) + 1 * 256) by lia.
  apply Z.mod_add. lia.
Qed.

Lemma BCD_decode_encode d : 0 <= d <= 99 -> BCD2Decimal (decimal2BCD d) = d.
Proof.
  intros Hd.
  destruct (decimal2BCD_nibbles d) as [Hhi Hlo]; [lia|].
  unfold BCD2Decimal. unfold hi_nibble in Hhi. unfold lo_nibble in Hlo.
  rewrite Hhi, Hlo.
  rewrite (Z.mul_comm (d / 10) 10), <- Z.div_mod by lia.
  apply to_byte_small. unfold is_byte. lia.
Qed.

(** C7: for every integer [d] in [0,99], decoding the BCD encoding of [d]
    gives [d] back: [BCD2Decimal (decimal2BCD d) = d]. *)
Theorem BCD2Decimal_inverts_decimal2BCD d :
  0 <= d <= 99 -> BCD2Decimal (decimal2BCD d) = d.
Proof. apply BCD_decode_encode. Qed.

Lemma BCD2Decimal_inverts_decimal2BCD_witness :
  0 <= 59 <= 99 /\ BCD2Decimal (decimal2BCD 59) = 59.
Proof. split; [lia | apply (BCD2Decimal_inverts_decimal2BCD 59); lia]. Defined.

(** C8: for every byte [b] whose two nibbles are both in [0,9], encoding the
    decoded value gives [b] back: [decimal2BCD (BCD2Decimal b) = b]. *)
Theorem decimal2BCD_inverts_BCD2Decimal b :
  is_byte b -> 0 <= hi_nibble b <= 9 -> 0 <= lo_nibble b <= 9 ->
  decimal2BCD (BCD2Decimal b) = b.
Proof.
  unfold is_byte, hi_nibble, lo_nibble. intros Hb Hhi Hlo.
  unfold BCD2Decimal.
  rewrite to_byte_small by (unfold is_byte; lia).
  unfold decimal2BCD.
  destruct (digits_pack (b / 16) (b mod 16)) as [Hq Hr]; [lia|].
  rewrite Hq, Hr.
  rewrite (Z.mul_comm (b / 16) 16), <- Z.div_mod by lia.
  apply to_byte_small. unfold is_byte. lia.
Qed.

Lemma decimal2BCD_inverts_BCD2Decimal_witness :
  is_byte 0x59 /\ decimal2BCD (BCD2Decimal 0x59) = 0x59.
Proof.
  split; [unfold is_byte; lia|].
  apply (decimal2BCD_inverts_BCD2Decimal 0x59);
    unfold is_byte; split; vm_compute; (reflexivity || discriminate).
Defined.

(** C9, as stated, fails: 160 is encoded as 00, two decimal digits. *)
Lemma decimal2BCD_160_valid :
  ~ (forall dec, 99 < dec < 256 ->
       10 <= hi_nibble (decimal2BCD dec) \/ 10 <= lo_nibble (decimal2BCD dec)).
Proof.
  intros H. specialize (H 160 ltac:(lia)).
  vm_compute in H. destruct H as [H|H]; apply H; reflexivity.
Qed.

(** C9, amended: a byte from 100 to 159 is encoded with a high nibble of 10
    to 15, which is no decimal digit, and the low nibble is its units digit;
    from 160 on the 8-bit result wraps to the encoding of [dec - 160], whose
    two nibbles are decimal digits. *)
Theorem decimal2BCD_out_of_range dec :
  99 < dec < 256 ->
  (dec < 160 ->
     10 <= hi_nibble (decimal2BCD dec) <= 15
     /\ lo_nibble (decimal2BCD dec) = dec mod 10)
  /\ (160 <= dec ->
       decimal2BCD dec = decimal2BCD (dec - 160)
       /\ 0 <= hi_nibble (decimal2BCD dec) <= 9
       /\ 0 <= lo_nibble (decimal2BCD dec) <= 9).
Proof.
  intros Hd. split; intros Hc.
  - destruct (decimal2BCD_nibbles dec) as [-> ->]; [lia|]. split; [|reflexivity].
    assert (Hq : dec / 10 < 16) by (apply Z.div_lt_upper_bound; lia).
    assert (Hq0 : 10 <= dec / 10) by (apply Z.div_le_lower_bound; lia).
    lia.
  - rewrite decimal2BCD_wraps by lia. split; [reflexivity|].
    destruct (decimal2BCD_nibbles (dec - 160)) as [-> ->]; [lia|].
    assert (Hr : 0 <= (dec - 160) mod 10 < 10) by (apply Z.mod_pos_bound; lia).
    assert (Hq : (dec - 160) / 10 < 10) by (apply Z.div_lt_upper_bound; lia).
    assert (Hq0 : 0 <= (dec - 160) / 10) by (apply Z.div_pos; lia).
    lia.
Qed.

Lemma decimal2BCD_out_of_range_witness :
  99 < 123 < 256 /\ 10 <= hi_nibble (decimal2BCD 123) <= 15
  /\ 0 <= hi_nibble (decimal2BCD 200) <= 9.
Proof.
  split; [lia|]. split.
  - apply (proj1 (decimal2BCD_out_of_range 123 ltac:(lia))). lia.
  - apply (proj2 (decimal2BCD_out_of_range 200 ltac:(lia))). lia.
Defined.

(** ** Running the monad *)

Lemma append_empty_r (s : string) : (s ++ "")%string = s.
Proof. induction s as [|c s IH]; simpl; [reflexivity | now rewrite IH]. Qed.

Lemma append_assoc (s1 s2 s3 : string) :
  ((s1 ++ s2) ++ s3)%string = (s1 ++ (s2 ++ s3))%string.
Proof. induction s1 as [|c s1 IH]; simpl; [reflexivity | now rewrite IH]. Qed.

Lemma advance_nothing w : advance 0 [] "" w = w.
Proof.
  destruct w as [d t s]. unfold advance. simpl.
  now rewrite app_nil_r, append_empty_r.
Qed.

Lemma advance_advance k1 e1 o1 k2 e2 o2 w :
  advance k2 e2 o2 (advance k1 e1 o1 w)
  = advance (k1 + k2) (e1 ++ e2) (o1 ++ o2) w.
Proof.
  unfold advance. simpl.
  now rewrite drop_drop, app_assoc, append_assoc.
Qed.

Lemma sample_advance k e o w i : sample (advance k e o w) i = sample w (k + i).
Proof. unfold sample, advance. simpl. now rewrite lookup_drop. Qed.

Lemma samples_advance k e o w i n :
  samples (advance k e o w) i n = samples w (k + i) n.
Proof.
  unfold samples. revert i. induction n as [|n IH]; intros i; simpl; [reflexivity|].
  rewrite sample_advance. f_equal. rewrite IH. now rewrite Nat.add_succ_r.
Qed.

(** Sequencing: when the first part runs from [w] and the rest runs from
    where the first part stopped, the effects add up. *)
Lemma bind_advance {A B} (c : M A) (f : A -> M B) w a k1 e1 o1 b k2 e2 o2 :
  c w = Ret a (advance k1 e1 o1 w) ->
  f a (advance k1 e1 o1 w) = Ret b (advance k2 e2 o2 (advance k1 e1 o1 w)) ->
  bind c f w = Ret b (advance (k1 + k2) (e1 ++ e2) (o1 ++ o2) w).
Proof.
  intros Hc Hf. unfold bind. rewrite Hc, Hf. now rewrite advance_advance.
Qed.

Lemma advance_eq {A} (c : M A) w a a' k k' e e' o o' :
  c w = Ret a (advance k e o w) ->
  a = a' -> k = k' -> e = e' -> o = o' ->
  c w = Ret a' (advance k' e' o' w).
Proof. now intros -> -> -> -> ->. Qed.

Lemma ret_advance {A} (a : A) w : ret a w = Ret a (advance 0 [] "" w).
Proof. unfold ret. now rewrite advance_nothing. Qed.

Lemma pinMode_advance pin m w :
  pinMode pin m w = Ret tt (advance 0 [PinMode pin m] "" w).
Proof.
  unfold pinMode, log, advance. now rewrite drop_0, append_empty_r.
Qed.

Lemma digitalWrite_advance pin v w :
  digitalWrite pin v w = Ret tt (advance 0 [DigitalWrite pin v] "" w).
Proof.
  unfold digitalWrite, log, advance. now rewrite drop_0, append_empty_r.
Qed.

Lemma digitalRead_advance pin w :
  digitalRead pin w
  = Ret (sample w 0) (advance 1 [DigitalRead pin (sample w 0)] "" w).
Proof.
  unfold digitalRead, advance, sample. rewrite append_empty_r.
  destruct (dq_in w) as [|v d]; simpl; now rewrite ?drop_0.
Qed.

Lemma Serial_print_advance s w :
  Serial_print s w = Ret tt (advance 0 [] s w).
Proof. unfold Serial_print, advance. now rewrite drop_0, app_nil_r. Qed.

Lemma arr_get_advance {A} (a : list A) i v w :
  a !! i = Some v -> arr_get a i w = Ret v (advance 0 [] "" w).
Proof. intros H. unfold arr_get. now rewrite H, advance_nothing. Qed.

Lemma arr_set_advance {A} (a : list A) i v w :
  (i < length a)%nat -> arr_set a i v w = Ret (<[i:=v]> a) (advance 0 [] "" w).
Proof.
  intros H. unfold arr_set. rewrite decide_True by exact H.
  now rewrite advance_nothing.
Qed.

Lemma dsChipEnable_advance b w :
  dsChipEnable b w
  = Ret tt (advance 0 [DigitalWrite ds_CEpin (if b then LOW else HIGH)] "" w).
Proof. destruct b; apply digitalWrite_advance. Qed.

Create HintDb runs.

#[local] Hint Resolve ret_advance pinMode_advance digitalWrite_advance
  digitalRead_advance Serial_print_advance dsChipEnable_advance : runs.

(** One statement of a body: run it by a known fact and go on with the
    rest. *)
Ltac run_step :=
  lazymatch goal with
  | |- bind _ _ _ = Ret _ _ =>
      eapply bind_advance; [solve [eauto with runs] | cbv beta zeta]
  | |- _ => solve [eauto with runs]
  end.

Ltac run_body :=
  eapply advance_eq; [repeat run_step | ..];
  rewrite ?sample_advance, ?samples_advance; cbn [Nat.add].

Lemma dsWriteBit_advance b w :
  dsWriteBit b w = Ret tt (advance 0 (write_bit_events b) "" w).
Proof. unfold dsWriteBit. run_body; reflexivity. Qed.

Lemma dsReadBit_advance w :
  dsReadBit w
  = Ret (Z_of_level (sample w 0)) (advance 1 (read_bit_events (sample w 0)) "" w).
Proof.
  unfold dsReadBit. run_body; try reflexivity.
  now destruct (sample w 0).
Qed.

#[local] Hint Resolve dsWriteBit_advance dsReadBit_advance : runs.

(** ** Byte transport *)

(** Testing a byte against the mask [2^i] reads its bit [i]. *)
Lemma bool_of_mask n i : 0 <= i -> bool_of_Z (Z.land n (2 ^ i)) = Z.testbit n i.
Proof.
  intros Hi. unfold bool_of_Z.
  destruct (Z.testbit n i) eqn:E.
  - destruct (Z.eqb_spec (Z.land n (2 ^ i)) 0) as [H0|]; [|reflexivity].
    assert (Hb : Z.testbit (Z.land n (2 ^ i)) i = true).
    { rewrite Z.land_spec, E, Z.pow2_bits_true by lia. reflexivity. }
    rewrite H0, Z.bits_0 in Hb. discriminate.
  - assert (H0 : Z.land n (2 ^ i) = 0).
    { apply Z.bits_inj'. intros m Hm.
      rewrite Z.land_spec, Z.bits_0, Z.pow2_bits_eqb by lia.
      destruct (Z.eqb_spec i m) as [->|]; [rewrite E|]; auto using andb_false_r. }
    rewrite H0. reflexivity.
Qed.

Lemma dsSendByte_advance n w :
  dsSendByte n w = Ret tt (advance 0 (op_events (SendByte n)) "" w).
Proof.
  unfold dsSendByte. run_body; try reflexivity.
  unfold op_events. cbn [flat_map app].
  rewrite <- !bool_of_mask by lia. reflexivity.
Qed.

(** Eight bits or-ed in at positions 0 to 7 make the byte whose bits they
    are, least significant first. *)
Lemma or_shifted_bits v0 v1 v2 v3 v4 v5 v6 v7 :
  or_shifted (or_shifted (or_shifted (or_shifted (or_shifted (or_shifted
    (or_shifted (Z_of_level v0) (Z_of_level v1) 1) (Z_of_level v2) 2)
    (Z_of_level v3) 3) (Z_of_level v4) 4) (Z_of_level v5) 5)
    (Z_of_level v6) 6) (Z_of_level v7) 7
  = byte_of_bits [v0; v1; v2; v3; v4; v5; v6; v7].
Proof. destruct v0, v1, v2, v3, v4, v5, v6, v7; reflexivity. Qed.

Lemma dsReadByte_advance w :
  dsReadByte w
  = Ret (byte_of_bits (samples w 0 8))
        (advance 8 (op_events (ReceiveByte (samples w 0 8))) "" w).
Proof.
  unfold dsReadByte. run_body; try reflexivity.
  apply or_shifted_bits.
Qed.

Lemma byte_of_bits_testbit v0 v1 v2 v3 v4 v5 v6 v7 :
  (fun i => Z.testbit (byte_of_bits [v0; v1; v2; v3; v4; v5; v6; v7]) (Z.of_nat i))
    <$> seq 0 8
  = bool_of_level <$> [v0; v1; v2; v3; v4; v5; v6; v7].
Proof. destruct v0, v1, v2, v3, v4, v5, v6, v7; reflexivity. Qed.

Lemma byte_of_bits_is_byte v0 v1 v2 v3 v4 v5 v6 v7 :
  is_byte (byte_of_bits [v0; v1; v2; v3; v4; v5; v6; v7]).
Proof. destruct v0, v1, v2, v3, v4, v5, v6, v7; unfold is_byte; simpl; lia. Qed.

(** C5: [dsSendByte n] asserts chip-enable, turns the data line to output,
    writes bits 0 to 7 of [n] in that order and deasserts chip-enable,
    returning nothing; [dsReadByte] turns the data line to input, asserts
    chip-enable, takes eight samples, deasserts chip-enable and returns the
    byte whose bit [i] is the [i]-th sample. *)
Theorem byte_transport_order (n : Z) (w : world) :
  dsSendByte n w = Ret tt (advance 0 (op_events (SendByte n)) "" w)
  /\ dsReadByte w
     = Ret (byte_of_bits (samples w 0 8))
           (advance 8 (op_events (ReceiveByte (samples w 0 8))) "" w)
  /\ (fun i => Z.testbit (byte_of_bits (samples w 0 8)) (Z.of_nat i)) <$> seq 0 8
     = bool_of_level <$> samples w 0 8
  /\ is_byte (byte_of_bits (samples w 0 8)).
Proof.
  split; [apply dsSendByte_advance|].
  split; [apply dsReadByte_advance|].
  split; [apply byte_of_bits_testbit | apply byte_of_bits_is_byte].
Qed.

#[local] Hint Resolve dsSendByte_advance dsReadByte_advance : runs.

(** ** Wake sequence *)

Lemma dsSendCodes_advance w :
  dsSendCodes w = Ret tt (advance 1 (flat_map op_events (wake_ops w)) "" w).
Proof. unfold dsSendCodes. run_body; reflexivity. Qed.

(** C4: [dsSendCodes] performs nine transport operations in a fixed order:
    one bit read under chip-enable with the data line as input, whose value
    is not used, then the eight byte-sends of C5 3A A3 5C C5 3A A3 5C. *)
Theorem dsSendCodes_wake_sequence (w : world) :
  dsSendCodes w = Ret tt (advance 1 (flat_map op_events (wake_ops w)) "" w)
  /\ wake_ops w
     = ThrowawayBitRead (sample w 0)
         :: (SendByte <$> [0xC5; 0x3A; 0xA3; 0x5C; 0xC5; 0x3A; 0xA3; 0x5C])
  /\ length (wake_ops w) = 9%nat.
Proof.
  split; [apply dsSendCodes_advance|]. split; reflexivity.
Qed.

#[local] Hint Resolve dsSendCodes_advance : runs.

(** ** Reading the registers *)

#[local] Hint Extern 1 (arr_set _ _ _ _ = Ret _ _) =>
  apply arr_set_advance; simpl; lia : runs.
#[local] Hint Extern 1 (arr_get _ _ _ = Ret _ _) =>
  apply arr_get_advance; reflexivity : runs.

(** The eight bytes are stored at indices 0 to 7 in the order they are
    received; nothing of the former contents is left. *)
Lemma dsReadRegisters_advance (dsRegister : list Z) w :
  length dsRegister = 8%nat ->
  dsReadRegisters dsRegister w
  = Ret ((fun i => byte_of_bits (samples w (8 * i) 8)) <$> seq 0 8)
        (advance 64
           (flat_map op_events
              ((fun i => ReceiveByte (samples w (8 * i) 8)) <$> seq 0 8))
           "" w).
Proof.
  intros Hlen.
  destruct dsRegister as [|r0 [|r1 [|r2 [|r3 [|r4 [|r5 [|r6 [|r7 [|]]]]]]]]];
    try discriminate Hlen.
  unfold dsReadRegisters. run_body; reflexivity.
Qed.

(** Outside an array of eight, the first store already faults, after one
    byte was received. *)
Lemma dsReadRegisters_empty w :
  dsReadRegisters [] w
  = Fault (advance 8 (op_events (ReceiveByte (samples w 0 8))) "" w).
Proof.
  unfold dsReadRegisters, bind. rewrite dsReadByte_advance. reflexivity.
Qed.

(** ** Printing leaves the pins alone *)

Lemma quiet_ret {A} (a : A) : quiet (ret a).
Proof. intros w. split; reflexivity. Qed.

Lemma quiet_bind {A B} (c : M A) (f : A -> M B) :
  quiet c -> (forall a, quiet (f a)) -> quiet (bind c f).
Proof.
  intros Hc Hf w. unfold bind.
  destruct (Hc w) as [Ht Hd]. destruct (c w) as [a w'|w']; simpl in *.
  - destruct (Hf a w') as [Ht' Hd']. split; congruence.
  - split; assumption.
Qed.

Lemma quiet_Serial_print s : quiet (Serial_print s).
Proof. intros w. split; reflexivity. Qed.

Lemma quiet_arr_get {A} (a : list A) i : quiet (arr_get a i).
Proof. intros w. unfold arr_get. destruct (a !! i); split; reflexivity. Qed.

Ltac quiet_body :=
  repeat first
    [ apply quiet_Serial_print | apply quiet_arr_get | apply quiet_ret
    | apply quiet_bind; [|intros ?] ].

Lemma quiet_dsSerialPrintDate regs : quiet (dsSerialPrintDate regs).
Proof. unfold dsSerialPrintDate. quiet_body. Qed.

Lemma quiet_dsSerialPrintTime regs : quiet (dsSerialPrintTime regs).
Proof. unfold dsSerialPrintTime. quiet_body. Qed.

Lemma quiet_dsSerialPrintRegisters regs : quiet (dsSerialPrintRegisters regs).
Proof.
  unfold dsSerialPrintRegisters, Serial_println.
  repeat first
    [ apply quiet_dsSerialPrintDate | apply quiet_dsSerialPrintTime
    | apply quiet_Serial_print | apply quiet_arr_get
    | apply quiet_bind; [|intros ?] ].
Qed.

(** ** The read cycle *)

Lemma read_transport_advance w :
  (dsSendCodes ;; dsReadRegisters (replicate 8 0)) w
  = Ret (received_registers w)
        (advance 65 (flat_map op_events (read_cycle_ops w)) "" w).
Proof.
  eapply advance_eq.
  - eapply bind_advance; [apply dsSendCodes_advance|].
    apply dsReadRegisters_advance. reflexivity.
  - unfold received_registers, register_bits. cbn [fmap list_fmap seq].
    rewrite !samples_advance. reflexivity.
  - reflexivity.
  - unfold read_cycle_ops, register_bits. rewrite flat_map_app.
    cbn [fmap list_fmap seq]. rewrite !samples_advance. reflexivity.
  - reflexivity.
Qed.

Lemma pin_level_last pin v tr :
  pin_level pin (tr ++ [DigitalWrite pin v]) = Some v.
Proof.
  unfold pin_level. rewrite fold_left_app. simpl.
  now rewrite Z.eqb_refl.
Qed.

(** Every transport operation ends by driving chip-enable high. *)
Lemma op_events_release o :
  exists evs, op_events o = evs ++ [DigitalWrite ds_CEpin HIGH].
Proof.
  destruct o as [v|n|bits]; unfold op_events; rewrite app_assoc; eauto.
Qed.

Lemma chip_enable_released tr done o :
  pin_level ds_CEpin (tr ++ flat_map op_events (done ++ [o])) = Some HIGH.
Proof.
  rewrite flat_map_app. simpl. rewrite app_nil_r.
  destruct (op_events_release o) as [evs ->].
  rewrite !app_assoc. apply pin_level_last.
Qed.

Lemma bind_assoc {A B C} (c : M A) (f : A -> M B) (g : B -> M C) w :
  bind (bind c f) g w = bind c (fun a => bind (f a) g) w.
Proof. unfold bind. destruct (c w); reflexivity. Qed.

(** The cycle is the transport part followed by the printing of what was
    received. *)
Lemma dsReadAndPrintTime_unfold w :
  dsReadAndPrintTime w
  = dsSerialPrintRegisters (received_registers w)
      (advance 65 (flat_map op_events (read_cycle_ops w)) "" w).
Proof.
  unfold dsReadAndPrintTime. cbv zeta.
  rewrite <- bind_assoc. unfold bind at 1.
  now rewrite read_transport_advance.
Qed.

(** C6: a read cycle issues the wake sequence and then exactly eight
    receive-byte operations, the [i]-th of which fills register [i];
    chip-enable is high after every operation of the cycle and when the
    cycle is over, whatever the printing does. *)
Theorem dsReadAndPrintTime_read_cycle (w : world) :
  dsReadAndPrintTime w
  = dsSerialPrintRegisters (received_registers w)
      (advance 65 (flat_map op_events (read_cycle_ops w)) "" w)
  /\ trace (final (dsReadAndPrintTime w))
     = trace w ++ flat_map op_events (read_cycle_ops w)
  /\ read_cycle_ops w
     = wake_ops w
         ++ ((fun i => ReceiveByte (samples w (1 + 8 * i) 8)) <$> [0; 1; 2; 3; 4; 5; 6; 7]%nat)
  /\ received_registers w
     = (fun i => byte_of_bits (samples w (1 + 8 * i) 8)) <$> [0; 1; 2; 3; 4; 5; 6; 7]%nat
  /\ (forall done o rest,
        read_cycle_ops w = done ++ o :: rest ->
        pin_level ds_CEpin (trace w ++ flat_map op_events (done ++ [o])) = Some HIGH)
  /\ pin_level ds_CEpin (trace (final (dsReadAndPrintTime w))) = Some HIGH.
Proof.
  assert (Htr : trace (final (dsReadAndPrintTime w))
                = trace w ++ flat_map op_events (read_cycle_ops w)).
  { rewrite dsReadAndPrintTime_unfold.
    now destruct (quiet_dsSerialPrintRegisters (received_registers w)
                    (advance 65 (flat_map op_events (read_cycle_ops w)) "" w))
      as [-> _]. }
  split; [apply dsReadAndPrintTime_unfold|].
  split; [exact Htr|].
  split; [reflexivity|]. split; [reflexivity|].
  split.
  - intros done o rest _. apply chip_enable_released.
  - rewrite Htr.
    change (read_cycle_ops w)
      with ((wake_ops w
               ++ ((fun i => ReceiveByte (register_bits w i)) <$> seq 0 7))
              ++ [ReceiveByte (register_bits w 7)]).
    apply chip_enable_released.
Qed.

Lemma dsReadAndPrintTime_read_cycle_witness :
  let w := {| dq_in := []; trace := []; serial := "" |} in
  pin_level ds_CEpin
    (trace w ++ flat_map op_events ([] ++ [ThrowawayBitRead LOW])) = Some HIGH.
Proof.
  intros w.
  apply (proj1 (proj2 (proj2 (proj2 (proj2 (dsReadAndPrintTime_read_cycle w)))))
           [] (ThrowawayBitRead LOW)
           ((SendByte <$> WakeCode)
              ++ ((fun i => ReceiveByte (register_bits w i)) <$> seq 0 8))).
  reflexivity.
Defined.

(** ** Printing the registers *)

(** The masked day value is the low nibble of the day register. *)
Lemma dayIndex_of_lo_nibble day : dayIndex_of day = lo_nibble day.
Proof.
  unfold dayIndex_of, lo_nibble.
  change 0x0f with (Z.ones 4). rewrite Z.land_ones by lia. reflexivity.
Qed.

Lemma lo_nibble_range day : 0 <= lo_nibble day < 16.
Proof. unfold lo_nibble. apply Z.mod_pos_bound. lia. Qed.

(** C2: the weekday name is looked up at the masked day value itself, so
    the lookup is inside the seven-entry [dayStrings] exactly for the values
    0 to 6; the day value 7 addresses the entry after the last one. *)
Theorem dayStrings_lookup_bounds (day : Z) :
  (is_Some (dayStrings !! Z.to_nat (dayIndex_of day)) <-> lo_nibble day <= 6)
  /\ length dayStrings = 7%nat
  /\ dayIndex_of 0x07 = 7
  /\ dayStrings !! Z.to_nat (dayIndex_of 0x07) = None.
Proof.
  split; [|repeat split].
  rewrite dayIndex_of_lo_nibble.
  pose proof (lo_nibble_range day) as Hr.
  rewrite lookup_lt_is_Some. change (length dayStrings) with 7%nat. lia.
Qed.

(** The date is printed as 20YY-MM-DD and the time as HH:MM:SS.ss, each
    register through [BCD2ASCII]. *)
Lemma dsSerialPrintDate_advance r0 r1 r2 r3 r4 r5 r6 r7 w :
  dsSerialPrintDate [r0; r1; r2; r3; r4; r5; r6; r7] w
  = Ret tt (advance 0 []
              ("20" ++ BCD2ASCII r7 ++ "-" ++ BCD2ASCII r6 ++ "-" ++ BCD2ASCII r5) w).
Proof. unfold dsSerialPrintDate. run_body; reflexivity. Qed.

Lemma dsSerialPrintTime_advance r0 r1 r2 r3 r4 r5 r6 r7 w :
  dsSerialPrintTime [r0; r1; r2; r3; r4; r5; r6; r7] w
  = Ret tt (advance 0 []
              (BCD2ASCII r3 ++ ":" ++ BCD2ASCII r2 ++ ":" ++ BCD2ASCII r1
                 ++ "." ++ BCD2ASCII r0) w).
Proof. unfold dsSerialPrintTime. run_body; reflexivity. Qed.

Lemma dsSerialPrintDate_example w :
  dsSerialPrintDate example_image w = Ret tt (advance 0 [] "2020-02-19" w).
Proof. apply dsSerialPrintDate_advance. Qed.

Lemma dsSerialPrintTime_example w :
  dsSerialPrintTime example_image w = Ret tt (advance 0 [] "15:31:27.00" w).
Proof. apply dsSerialPrintTime_advance. Qed.

#[local] Hint Resolve dsSerialPrintDate_advance dsSerialPrintTime_advance : runs.

(** With the day register one lower the same routine prints the line of the
    scenario. *)
Lemma dsSerialPrintRegisters_day6 w :
  dsSerialPrintRegisters (<[dsDayRegister := 0x06]> example_image) w
  = Ret tt (advance 0 [] ("Sunday 2020-02-19 15:31:27.00" ++ CRLF) w).
Proof.
  unfold dsSerialPrintRegisters, Serial_println.
  change (<[dsDayRegister := 0x06]> example_image)
    with [0x00; 0x27; 0x31; 0x15; 0x06; 0x19; 0x02; 0x20].
  run_body; reflexivity.
Qed.

Lemma received_chip_reply v tr out :
  received_registers
    {| dq_in := chip_reply v example_image; trace := tr; serial := out |}
  = example_image.
Proof. reflexivity. Qed.

(** C1: on the register image 00 27 31 15 07 19 02 20 the date prints as
    2020-02-19 and the time as 15:31:27.00, but [dsSerialPrintRegisters]
    prints neither: it first looks the weekday up at index 7 of the
    seven-entry [dayStrings], outside the array, so no weekday name and no
    line is produced, also when the image comes in through a read cycle. *)
Theorem dsSerialPrintRegisters_example (w : world) (v : level) :
  dsSerialPrintRegisters example_image w = Fault w
  /\ dayStrings !! Z.to_nat (dayIndex_of (default 0 (example_image !! dsDayRegister)))
     = None
  /\ dsSerialPrintDate example_image w = Ret tt (advance 0 [] "2020-02-19" w)
  /\ dsSerialPrintTime example_image w = Ret tt (advance 0 [] "15:31:27.00" w)
  /\ (let chip := {| dq_in := chip_reply v example_image;
                     trace := trace w; serial := serial w |} in
      received_registers chip = example_image
      /\ dsReadAndPrintTime chip
         = Fault (advance 65 (flat_map op_events (read_cycle_ops chip)) "" chip)).
Proof.
  split; [reflexivity|]. split; [reflexivity|].
  split; [apply dsSerialPrintDate_example|].
  split; [apply dsSerialPrintTime_example|].
  cbv zeta. split; [apply received_chip_reply|].
  rewrite dsReadAndPrintTime_unfold, received_chip_reply. reflexivity.
Qed.

(** ** The write cycle *)

(** The eight assignments of [dsWriteRegisters], slot by slot. *)
Lemma dsWriteRegisters_reg_slots year month day dow hours minutes seconds :
  dsWriteRegisters_reg year month day dow hours minutes seconds
  = [0; decimal2BCD seconds; decimal2BCD minutes; decimal2BCD hours;
     decimal2BCD dow; decimal2BCD day; decimal2BCD month;
     decimal2BCD (to_byte (Z.rem year 100))].
Proof. reflexivity. Qed.

Lemma dsWriteRegisters_advance year month day dow hours minutes seconds w :
  dsWriteRegisters year month day dow hours minutes seconds w
  = Ret tt
      (advance 0
         (flat_map op_events
            (SendByte <$> dsWriteRegisters_reg year month day dow hours minutes seconds))
         "" w).
Proof.
  unfold dsWriteRegisters. rewrite dsWriteRegisters_reg_slots. cbv zeta.
  run_body; reflexivity.
Qed.

(** A non-negative year is cut down to its last two decimal digits. *)
Lemma year_digits year :
  0 <= year ->
  hi_nibble (decimal2BCD (to_byte (Z.rem year 100))) = (year / 10) mod 10
  /\ lo_nibble (decimal2BCD (to_byte (Z.rem year 100))) = year mod 10.
Proof.
  intros Hy. rewrite Z.rem_mod_nonneg by lia.
  assert (Hr : 0 <= year mod 100 < 100) by (apply Z.mod_pos_bound; lia).
  rewrite to_byte_small by (unfold is_byte; lia).
  destruct (decimal2BCD_nibbles (year mod 100)) as [-> ->]; [lia|].
  split; Z.div_mod_to_equations; lia.
Qed.

(** C10: [dsWriteRegisters] takes any integer as year and puts
    [decimal2BCD (year % 100)] in the year register, so that 2019 is stored
    as 0x19 and a non-negative year as its last two decimal digits; the
    sub-second register is written as 0 whatever the arguments are; the
    eight registers are then sent in index order. *)
Theorem dsWriteRegisters_year_subsecond
    (year month day dow hours minutes seconds : Z) (w : world) :
  let reg := dsWriteRegisters_reg year month day dow hours minutes seconds in
  reg !! dsYearRegister = Some (decimal2BCD (to_byte (Z.rem year 100)))
  /\ reg !! dsSubSecondRegister = Some 0
  /\ dsWriteRegisters year month day dow hours minutes seconds w
     = Ret tt (advance 0 (flat_map op_events (SendByte <$> reg)) "" w)
  /\ (0 <= year ->
      hi_nibble (reg_at reg dsYearRegister) = (year / 10) mod 10
      /\ lo_nibble (reg_at reg dsYearRegister) = year mod 10)
  /\ dsWriteRegisters_reg 2019 month day dow hours minutes seconds !! dsYearRegister
     = Some 0x19.
Proof.
  cbv zeta. split; [reflexivity|]. split; [reflexivity|].
  split; [apply dsWriteRegisters_advance|].
  split; [|reflexivity].
  intros Hy. apply (year_digits year Hy).
Qed.

Lemma dsWriteRegisters_year_subsecond_witness :
  0 <= 2019
  /\ hi_nibble (reg_at (dsWriteRegisters_reg 2019 2 3 7 21 27 0) dsYearRegister) = 1
  /\ lo_nibble (reg_at (dsWriteRegisters_reg 2019 2 3 7 21 27 0) dsYearRegister) = 9.
Proof.
  split; [lia|].
  apply (proj1 (proj2 (proj2 (proj2
           (dsWriteRegisters_year_subsecond 2019 2 3 7 21 27 0
              {| dq_in := []; trace := []; serial := "" |}))))).
  lia.
Defined.

(** ** Round trip through the register codec *)

Lemma BCD_weekday dow :
  1 <= dow <= 7 -> BCD2Decimal (Z.land (decimal2BCD dow) 0x0f) = dow.
Proof.
  intros H.
  assert (Hc : dow = 1 \/ dow = 2 \/ dow = 3 \/ dow = 4 \/ dow = 5 \/ dow = 6
               \/ dow = 7) by lia.
  repeat destruct Hc as [->|Hc]; try reflexivity. now subst.
Qed.

Lemma decode_encode_fields ct :
  in_chip_ranges ct -> decode (encode ct) = with_subsecond 0 ct.
Proof.
  intros (Hy & Hmo & Hda & Hdw & Hh & Hmi & Hs & Hss).
  unfold encode. rewrite dsWriteRegisters_reg_slots.
  unfold decode, with_subsecond, reg_at. cbn [lookup list_lookup default
    dsYearRegister dsMonthRegister dsDateRegister dsDayRegister dsHourRegister
    dsMinutesRegister dsSecondsRegister dsSubSecondRegister].
  unfold id. rewrite Z.rem_small by lia.
  rewrite (to_byte_small (ct_year ct)) by (unfold is_byte; lia).
  rewrite BCD_weekday by lia.
  rewrite !BCD_decode_encode by lia.
  reflexivity.
Qed.

(** C3, as stated, fails: a sub-second value does not survive the round
    trip, since the encoder writes the sub-second register as 0. *)
Lemma decode_encode_loses_subsecond :
  ~ (forall ct, in_chip_ranges ct -> decode (encode ct) = ct).
Proof.
  intros H.
  specialize (H (with_subsecond 50 example_time)).
  assert (Hr : in_chip_ranges (with_subsecond 50 example_time))
    by (unfold in_chip_ranges; simpl; lia).
  apply H in Hr. apply (f_equal ct_subsecond) in Hr. discriminate Hr.
Qed.

(** C3, amended: for every value within the chip ranges, encoding as
    [dsWriteRegisters] does and decoding each register gives back the year,
    month, date, day of the week, hour, minute and second, with a sub-second
    of 0; the round trip is the identity exactly on the values whose
    sub-second is 0, such as year 25, month 12, date 31, day 3, 09:05:00. *)
Theorem register_codec_round_trip ct :
  in_chip_ranges ct ->
  decode (encode ct) = with_subsecond 0 ct
  /\ (decode (encode ct) = ct <-> ct_subsecond ct = 0)
  /\ decode (encode example_time) = example_time.
Proof.
  intros Hr. rewrite (decode_encode_fields ct Hr).
  split; [reflexivity|]. split; [|reflexivity].
  destruct ct as [y mo da dw h mi s ss]. unfold with_subsecond. simpl. split.
  - intros H. now apply (f_equal ct_subsecond) in H.
  - now intros ->.
Qed.

Lemma register_codec_round_trip_witness :
  in_chip_ranges example_time
  /\ decode (encode example_time) = with_subsecond 0 example_time.
Proof.
  assert (Hr : in_chip_ranges example_time)
    by (unfold in_chip_ranges; simpl; lia).
  split; [exact Hr|]. apply (proj1 (register_codec_round_trip example_time Hr)).
Defined.

(** ** More on the BCD codec and its printing *)

(** A property checked on the 256 bytes holds of every byte. *)
Lemma byte_forallb (f : Z -> bool) :
  forallb f (List.map Z.of_nat (seq 0 256)) = true ->
  forall b, is_byte b -> f b = true.
Proof.
  intros Hall b Hb. rewrite forallb_forall in Hall. apply Hall.
  rewrite <- (Z2Nat.id b) by (unfold is_byte in Hb; lia).
  apply in_map, in_seq. unfold is_byte in Hb. lia.
Qed.

(** Within range the encoder yields packed BCD. *)
Lemma decimal2BCD_valid d : 0 <= d <= 99 -> valid_bcd (decimal2BCD d).
Proof.
  intros Hd. unfold valid_bcd.
  destruct (decimal2BCD_nibbles d) as [-> ->]; [lia|].
  split; [apply to_byte_is_byte|].
  assert (Hq : d / 10 < 10) by (apply Z.div_lt_upper_bound; lia).
  assert (Hr : 0 <= d mod 10 < 10) by (apply Z.mod_pos_bound; lia).
  lia.
Qed.

(** A number from 0 to 99 goes through [decimal2BCD] and [BCD2ASCII] to its
    two decimal digits, tens first, with a leading zero below ten. *)
Theorem BCD2ASCII_decimal2BCD d :
  0 <= d <= 99 ->
  BCD2ASCII (decimal2BCD d)
  = String (digit_char (d / 10)) (String (digit_char (d mod 10)) EmptyString).
Proof.
  intros Hd.
  destruct (decimal2BCD_nibbles d) as [Hhi Hlo]; [lia|].
  unfold hi_nibble in Hhi. unfold lo_nibble in Hlo.
  assert (Hq : 0 <= d / 10 < 10).
  { split; [apply Z.div_pos | apply Z.div_lt_upper_bound]; lia. }
  assert (Hr : 0 <= d mod 10 < 10) by (apply Z.mod_pos_bound; lia).
  unfold BCD2ASCII, char_of, digit_char. rewrite Hhi, Hlo.
  rewrite !to_byte_small by (unfold is_byte; lia).
  now rewrite !(Z.add_comm _ 48).
Qed.

Lemma BCD2ASCII_decimal2BCD_witness :
  0 <= 7 <= 99 /\ BCD2ASCII (decimal2BCD 7) = "07"%string.
Proof. split; [lia | apply (BCD2ASCII_decimal2BCD 7); lia]. Defined.

(** [BCD2ASCII] prints two decimal digits exactly for the bytes that are
    packed BCD; a nibble from 10 to 15 comes out as one of the characters
    after '9'. *)
Theorem BCD2ASCII_all_digits b :
  is_byte b ->
  (all_digits (BCD2ASCII b) = true <-> hi_nibble b <= 9 /\ lo_nibble b <= 9).
Proof.
  intros Hb.
  pose proof (byte_forallb
    (fun b => Bool.eqb (all_digits (BCD2ASCII b))
                ((hi_nibble b <=? 9) && (lo_nibble b <=? 9)))
    ltac:(vm_compute; reflexivity) b Hb) as H.
  apply Bool.eqb_prop in H. rewrite H, andb_true_iff, !Z.leb_le. reflexivity.
Qed.

Lemma BCD2ASCII_all_digits_witness :
  is_byte 0x27 /\ all_digits (BCD2ASCII 0x27) = true.
Proof.
  assert (Hb : is_byte 0x27) by (unfold is_byte; lia).
  split; [exact Hb|].
  apply (BCD2ASCII_all_digits 0x27 Hb).
  split; vm_compute; discriminate.
Defined.

(** ** What goes over the data line *)

Lemma byte_of_bits_of_byte b : is_byte b -> byte_of_bits (bits_of_byte b) = b.
Proof.
  intros Hb. apply Z.eqb_eq.
  apply (byte_forallb (fun b => byte_of_bits (bits_of_byte b) =? b)
           ltac:(vm_compute; reflexivity) b Hb).
Qed.

(** The samples a world holds at a given place of its data line. *)
Lemma samples_middle w pre bits rest :
  dq_in w = pre ++ bits ++ rest ->
  samples w (length pre) (length bits) = bits.
Proof.
  unfold samples, sample. intros ->. revert pre.
  induction bits as [|b bits IH]; intros pre; [reflexivity|].
  change ((b :: bits) ++ rest) with (b :: (bits ++ rest)).
  cbn [length seq fmap list_fmap]. f_equal.
  - now rewrite list_lookup_middle by reflexivity.
  - specialize (IH (pre ++ [b])).
    rewrite length_app, Nat.add_1_r, <- app_assoc in IH. exact IH.
Qed.

Lemma issued_advance {A} (c : M A) w a k evs out :
  c w = Ret a (advance k evs out w) -> issued c w = evs.
Proof.
  intros H. unfold issued. rewrite H. simpl. now rewrite drop_app_length.
Qed.

(** The eight write pulses of [dsSendByte n] latch the bits of [n], least
    significant first. *)
Lemma latched_SendByte dq n rest :
  latched_from dq (op_events (SendByte n) ++ rest)
  = bits_of_byte n ++ latched_from (level_of_bool (Z.testbit n 7)) rest.
Proof. reflexivity. Qed.

Lemma latched_sends dq l :
  latched_from dq (flat_map op_events (SendByte <$> l)) = flat_map bits_of_byte l.
Proof.
  revert dq. induction l as [|n l IH]; intros dq; [reflexivity|].
  cbn [fmap list_fmap flat_map]. now rewrite latched_SendByte, IH.
Qed.

(** What [dsSendByte] writes, [dsReadByte] reads back: the bits latched
    while a byte [n] is sent are its eight bits, and a data line presenting
    them makes [dsReadByte] return [n] and leaves what follows them. *)
Theorem dsReadByte_dsSendByte_loopback n dq w0 w rest :
  is_byte n ->
  dq_in w = latched_from dq (issued (dsSendByte n) w0) ++ rest ->
  latched_from dq (issued (dsSendByte n) w0) = bits_of_byte n
  /\ exists w', dsReadByte w = Ret n w' /\ dq_in w' = rest.
Proof.
  intros Hn Hw.
  rewrite (issued_advance _ _ _ _ _ _ (dsSendByte_advance n w0)) in *.
  assert (Hl : latched_from dq (op_events (SendByte n)) = bits_of_byte n).
  { rewrite <- (app_nil_r (op_events (SendByte n))), latched_SendByte.
    apply app_nil_r. }
  rewrite Hl in Hw. split; [exact Hl|].
  rewrite dsReadByte_advance.
  change (samples w 0 8)
    with (samples w (length (@nil level)) (length (bits_of_byte n))).
  rewrite (samples_middle w [] (bits_of_byte n) rest Hw).
  rewrite byte_of_bits_of_byte by exact Hn.
  eexists. split; [reflexivity|].
  simpl. rewrite Hw. reflexivity.
Qed.

Lemma dsReadByte_dsSendByte_loopback_witness :
  is_byte 0xC5
  /\ exists w',
       dsReadByte {| dq_in := [HIGH; LOW; HIGH; LOW; LOW; LOW; HIGH; HIGH];
                     trace := []; serial := "" |} = Ret 0xC5 w'
       /\ dq_in w' = [].
Proof.
  assert (Hb : is_byte 0xC5) by (unfold is_byte; lia).
  split; [exact Hb|].
  apply (dsReadByte_dsSendByte_loopback 0xC5 LOW
           {| dq_in := []; trace := []; serial := "" |}
           {| dq_in := [HIGH; LOW; HIGH; LOW; LOW; LOW; HIGH; HIGH];
              trace := []; serial := "" |} [] Hb).
  reflexivity.
Defined.

(** A chip that answers a read cycle with the bits of eight bytes has
    exactly these bytes received, register by register. *)
Lemma received_chip_reply_bytes v image tr out :
  length image = 8%nat ->
  Forall is_byte image ->
  received_registers {| dq_in := chip_reply v image; trace := tr; serial := out |}
  = image.
Proof.
  intros Hlen Hall.
  destruct image as [|b0 [|b1 [|b2 [|b3 [|b4 [|b5 [|b6 [|b7 [|]]]]]]]]];
    try discriminate Hlen.
  repeat match goal with
         | H : Forall _ (_ :: _) |- _ =>
             let Hb := fresh "Hb" in
             inversion H as [|? ? Hb ?]; subst; clear H
         end.
  change (received_registers
            {| dq_in := chip_reply v [b0; b1; b2; b3; b4; b5; b6; b7];
               trace := tr; serial := out |})
    with [byte_of_bits (bits_of_byte b0); byte_of_bits (bits_of_byte b1);
          byte_of_bits (bits_of_byte b2); byte_of_bits (bits_of_byte b3);
          byte_of_bits (bits_of_byte b4); byte_of_bits (bits_of_byte b5);
          byte_of_bits (bits_of_byte b6); byte_of_bits (bits_of_byte b7)].
  now rewrite !byte_of_bits_of_byte by assumption.
Qed.

Lemma dsReadAndPrintTime_chip_reply_transport v image tr out :
  length image = 8%nat ->
  Forall is_byte image ->
  (dsSendCodes ;; dsReadRegisters (replicate 8 0))
    {| dq_in := chip_reply v image; trace := tr; serial := out |}
  = Ret image
      (advance 65
         (flat_map op_events
            (read_cycle_ops
               {| dq_in := chip_reply v image; trace := tr; serial := out |}))
         "" {| dq_in := chip_reply v image; trace := tr; serial := out |}).
Proof.
  intros Hlen Hall.
  rewrite read_transport_advance.
  now rewrite (received_chip_reply_bytes v image tr out Hlen Hall).
Qed.

(** The read cycle hands to the printing the very bytes the chip shifted
    out, for every eight bytes. *)
Theorem dsReadAndPrintTime_chip_reply v image tr out :
  length image = 8%nat ->
  Forall is_byte image ->
  let chip := {| dq_in := chip_reply v image; trace := tr; serial := out |} in
  (dsSendCodes ;; dsReadRegisters (replicate 8 0)) chip
  = Ret image (advance 65 (flat_map op_events (read_cycle_ops chip)) "" chip)
  /\ dsReadAndPrintTime chip
     = dsSerialPrintRegisters image
         (advance 65 (flat_map op_events (read_cycle_ops chip)) "" chip).
Proof.
  intros Hlen Hall chip.
  rewrite read_transport_advance, dsReadAndPrintTime_unfold.
  unfold chip. rewrite (received_chip_reply_bytes v image tr out Hlen Hall).
  split; reflexivity.
Qed.

Lemma dsReadAndPrintTime_chip_reply_witness :
  length example_image = 8%nat
  /\ (dsSendCodes ;; dsReadRegisters (replicate 8 0))
       {| dq_in := chip_reply LOW example_image; trace := []; serial := "" |}
     = Ret example_image
         (advance 65
            (flat_map op_events
               (read_cycle_ops
                  {| dq_in := chip_reply LOW example_image; trace := [];
                     serial := "" |}))
            ""
            {| dq_in := chip_reply LOW example_image; trace := []; serial := "" |}).
Proof.
  split; [reflexivity|].
  apply (dsReadAndPrintTime_chip_reply LOW example_image [] "").
  - reflexivity.
  - repeat constructor; unfold is_byte; lia.
Defined.

Lemma decimal2BCD_is_byte d : is_byte (decimal2BCD d).
Proof. apply to_byte_is_byte. Qed.

Lemma dsWriteRegisters_reg_bytes year month day dow hours minutes seconds :
  Forall is_byte (dsWriteRegisters_reg year month day dow hours minutes seconds).
Proof.
  rewrite dsWriteRegisters_reg_slots.
  repeat constructor; try apply decimal2BCD_is_byte; unfold is_byte; lia.
Qed.

(** Setting the clock and reading it back: the bits latched while
    [dsWriteRegisters] runs are those of its eight registers in index order,
    and a chip that shifts these bits out in the next read cycle has
    [dsReadRegisters] return the registers that were written, for all
    arguments. *)
Theorem dsWriteRegisters_read_back
    (year month day dow hours minutes seconds : Z)
    (dq v : level) (w : world) (tr : list event) (out : string) :
  let reg := dsWriteRegisters_reg year month day dow hours minutes seconds in
  let sent :=
    latched_from dq
      (issued (dsWriteRegisters year month day dow hours minutes seconds) w) in
  sent = flat_map bits_of_byte reg
  /\ exists w',
       (dsSendCodes ;; dsReadRegisters (replicate 8 0))
         {| dq_in := v :: sent; trace := tr; serial := out |}
       = Ret reg w'.
Proof.
  intros reg sent.
  assert (Hs : sent = flat_map bits_of_byte reg).
  { unfold sent.
    rewrite (issued_advance _ _ _ _ _ _
               (dsWriteRegisters_advance year month day dow hours minutes seconds w)).
    apply latched_sends. }
  split; [exact Hs|]. rewrite Hs.
  eexists.
  apply (dsReadAndPrintTime_chip_reply_transport v reg tr out).
  - reflexivity.
  - apply dsWriteRegisters_reg_bytes.
Qed.

(** ** Bounds of the register array *)

Lemma arr_set_fault {A} (a : list A) i v w :
  (length a <= i)%nat -> arr_set a i v w = Fault (advance 0 [] "" w).
Proof.
  intros H. unfold arr_set. rewrite decide_False by lia.
  now rewrite advance_nothing.
Qed.

Lemma bind_fault_now {A B} (c : M A) (f : A -> M B) w k e o :
  c w = Fault (advance k e o w) -> bind c f w = Fault (advance k e o w).
Proof. intros H. unfold bind. now rewrite H. Qed.

Lemma bind_fault_advance {A B} (c : M A) (f : A -> M B) w a k1 e1 o1 k2 e2 o2 :
  c w = Ret a (advance k1 e1 o1 w) ->
  f a (advance k1 e1 o1 w) = Fault (advance k2 e2 o2 (advance k1 e1 o1 w)) ->
  bind c f w = Fault (advance (k1 + k2) (e1 ++ e2) (o1 ++ o2) w).
Proof.
  intros Hc Hf. unfold bind. rewrite Hc, Hf. now rewrite advance_advance.
Qed.

Lemma fault_eq {A} (c : M A) w k k' e e' o o' :
  c w = Fault (advance k e o w) ->
  k = k' -> e = e' -> o = o' ->
  c w = Fault (advance k' e' o' w).
Proof. now intros -> -> -> ->. Qed.

Ltac fault_step :=
  first
    [ eapply bind_fault_now; solve [apply arr_set_fault; simpl; lia]
    | eapply bind_fault_advance; [solve [eauto with runs] | cbv beta zeta] ].

Ltac fault_body :=
  eapply fault_eq; [repeat fault_step | ..];
  rewrite ?sample_advance, ?samples_advance; cbn [Nat.add].

(** [dsReadRegisters] needs room for eight bytes.  In a larger array it
    overwrites the first eight slots with the bytes received, in order, and
    leaves the others as they were. *)
Theorem dsReadRegisters_first_eight (regs rest : list Z) w :
  length regs = 8%nat ->
  dsReadRegisters (regs ++ rest) w
  = Ret (((fun i => byte_of_bits (samples w (8 * i) 8)) <$> seq 0 8) ++ rest)
        (advance 64
           (flat_map op_events
              ((fun i => ReceiveByte (samples w (8 * i) 8)) <$> seq 0 8))
           "" w).
Proof.
  intros Hlen.
  destruct regs as [|r0 [|r1 [|r2 [|r3 [|r4 [|r5 [|r6 [|r7 [|]]]]]]]]];
    try discriminate Hlen.
  unfold dsReadRegisters. cbn [app]. run_body; reflexivity.
Qed.

Lemma dsReadRegisters_first_eight_witness :
  length [1; 2; 3; 4; 5; 6; 7; 8] = 8%nat
  /\ dsReadRegisters ([1; 2; 3; 4; 5; 6; 7; 8] ++ [9; 10])
       {| dq_in := []; trace := []; serial := "" |}
     = Ret ([0; 0; 0; 0; 0; 0; 0; 0] ++ [9; 10])
         (advance 64
            (flat_map op_events
               ((fun _ : nat => ReceiveByte [LOW; LOW; LOW; LOW; LOW; LOW; LOW; LOW])
                  <$> seq 0 8))
            "" {| dq_in := []; trace := []; serial := "" |}).
Proof.
  split; [reflexivity|].
  apply (dsReadRegisters_first_eight [1; 2; 3; 4; 5; 6; 7; 8] [9; 10]
           {| dq_in := []; trace := []; serial := "" |}).
  reflexivity.
Defined.

(** In an array of fewer than eight bytes it stores past the end: the
    bytes that fit are received and stored, one more byte is received, and
    its store is outside the array. *)
Theorem dsReadRegisters_short_array (regs : list Z) w :
  (length regs < 8)%nat ->
  dsReadRegisters regs w
  = Fault (advance (8 * S (length regs))
             (flat_map op_events
                ((fun i => ReceiveByte (samples w (8 * i) 8))
                   <$> seq 0 (S (length regs))))
             "" w).
Proof.
  intros Hlen.
  destruct regs as [|r0 [|r1 [|r2 [|r3 [|r4 [|r5 [|r6 [|r7 regs]]]]]]]];
    try (simpl in Hlen; lia);
    unfold dsReadRegisters; fault_body; reflexivity.
Qed.

Lemma dsReadRegisters_short_array_witness :
  (length [1; 2] < 8)%nat
  /\ dsReadRegisters [1; 2] {| dq_in := []; trace := []; serial := "" |}
     = Fault (advance 24
                (flat_map op_events
                   ((fun _ : nat => ReceiveByte [LOW; LOW; LOW; LOW; LOW; LOW; LOW; LOW])
                      <$> seq 0 3))
                "" {| dq_in := []; trace := []; serial := "" |}).
Proof.
  split; [simpl; lia|].
  apply (dsReadRegisters_short_array [1; 2]
           {| dq_in := []; trace := []; serial := "" |}).
  simpl. lia.
Defined.

(** ** The printed line *)

#[local] Hint Resolve arr_get_advance : runs.

Lemma dsSerialPrintRegisters_day_fault r0 r1 r2 r3 r4 r5 r6 r7 w :
  dayStrings !! Z.to_nat (dayIndex_of r4) = None ->
  dsSerialPrintRegisters [r0; r1; r2; r3; r4; r5; r6; r7] w = Fault w.
Proof.
  intros H. unfold dsSerialPrintRegisters, bind.
  unfold arr_get at 1. cbn [lookup list_lookup dsDayRegister].
  unfold arr_get at 1. now rewrite H.
Qed.

(** [dsSerialPrintRegisters] on eight registers: when the low nibble of the
    day register is at most 6 it prints one line, made of the entry of
    [dayStrings] at that index, a space, 20YY-MM-DD, a space, HH:MM:SS.ss and
    the line end, every two-character field being the [BCD2ASCII] of its
    register; when the nibble is 7 or more it reads outside [dayStrings]
    before anything is printed. *)
Theorem dsSerialPrintRegisters_line r0 r1 r2 r3 r4 r5 r6 r7 w :
  (lo_nibble r4 <= 6 ->
   exists name,
     dayStrings !! Z.to_nat (lo_nibble r4) = Some name
     /\ dsSerialPrintRegisters [r0; r1; r2; r3; r4; r5; r6; r7] w
        = Ret tt
            (advance 0 []
               (name ++ " "
                  ++ ("20" ++ BCD2ASCII r7 ++ "-" ++ BCD2ASCII r6 ++ "-" ++ BCD2ASCII r5)
                  ++ " "
                  ++ (BCD2ASCII r3 ++ ":" ++ BCD2ASCII r2 ++ ":" ++ BCD2ASCII r1
                        ++ "." ++ BCD2ASCII r0)
                  ++ CRLF) w))
  /\ (7 <= lo_nibble r4 ->
      dsSerialPrintRegisters [r0; r1; r2; r3; r4; r5; r6; r7] w = Fault w).
Proof.
  pose proof (lo_nibble_range r4) as Hr.
  rewrite <- dayIndex_of_lo_nibble in *. split; intros Hd.
  - destruct (dayStrings !! Z.to_nat (dayIndex_of r4)) as [name|] eqn:E.
    2:{ apply lookup_ge_None in E. change (length dayStrings) with 7%nat in E. lia. }
    exists name. split; [reflexivity|].
    unfold dsSerialPrintRegisters, Serial_println. run_body; reflexivity.
  - apply dsSerialPrintRegisters_day_fault.
    apply lookup_ge_None. change (length dayStrings) with 7%nat. lia.
Qed.

Lemma dsSerialPrintRegisters_line_witness :
  lo_nibble 0x02 <= 6
  /\ exists name,
       dayStrings !! Z.to_nat (lo_nibble 0x02) = Some name
       /\ dsSerialPrintRegisters [0x50; 0x59; 0x59; 0x23; 0x02; 0x31; 0x12; 0x99]
            {| dq_in := []; trace := []; serial := "" |}
          = Ret tt
              (advance 0 []
                 (name ++ " " ++ "2099-12-31" ++ " " ++ "23:59:59.50" ++ CRLF)
                 {| dq_in := []; trace := []; serial := "" |}).
Proof.
  assert (Hd : lo_nibble 0x02 <= 6) by (vm_compute; discriminate).
  split; [exact Hd|].
  exact (proj1 (dsSerialPrintRegisters_line 0x50 0x59 0x59 0x23 0x02 0x31 0x12 0x99
                  {| dq_in := []; trace := []; serial := "" |}) Hd).
Defined.

(** Printing never touches a pin and takes no sample, whatever the array
    and whether or not the printing gets to its end. *)
Theorem printing_leaves_pins (regs : list Z) (w : world) :
  (trace (final (dsSerialPrintRegisters regs w)) = trace w
   /\ dq_in (final (dsSerialPrintRegisters regs w)) = dq_in w)
  /\ (trace (final (dsSerialPrintDate regs w)) = trace w
      /\ dq_in (final (dsSerialPrintDate regs w)) = dq_in w)
  /\ (trace (final (dsSerialPrintTime regs w)) = trace w
      /\ dq_in (final (dsSerialPrintTime regs w)) = dq_in w).
Proof.
  split; [apply quiet_dsSerialPrintRegisters|].
  split; [apply quiet_dsSerialPrintDate | apply quiet_dsSerialPrintTime].
Qed.

(** ** The discipline of the lines *)

Lemma run_lines_app s tr1 tr2 :
  run_lines s (tr1 ++ tr2)
  = match run_lines s tr1 with
    | Some s' => run_lines s' tr2
    | None => None
    end.
Proof.
  revert s. induction tr1 as [|e tr1 IH]; intros s; simpl; [reflexivity|].
  destruct (line_step s e); [apply IH | reflexivity].
Qed.

(** Under chip-enable, with the data line an input, any number of bit reads
    keeps the lines where they are. *)
Lemma run_lines_reads bits rest :
  run_lines (Lines LOW HIGH HIGH INPUT) (flat_map read_bit_events bits ++ rest)
  = run_lines (Lines LOW HIGH HIGH INPUT) rest.
Proof. induction bits as [|v bits IH]; [reflexivity | exact IH]. Qed.

Lemma op_events_discipline o s :
  idle s -> exists s', run_lines s (op_events o) = Some s' /\ idle s'.
Proof.
  destruct s as [ce oe we dq]. intros (Hce & Hoe & Hwe). simpl in *. subst.
  destruct o as [v|n|bits].
  - exists (Lines HIGH HIGH HIGH INPUT). split; [reflexivity | repeat split].
  - exists (Lines HIGH HIGH HIGH OUTPUT). split; [reflexivity | repeat split].
  - exists (Lines HIGH HIGH HIGH INPUT). split; [|repeat split].
    unfold op_events.
    change (run_lines (Lines HIGH HIGH HIGH dq)
              ([PinMode dsDQ0pin INPUT; DigitalWrite ds_CEpin LOW]
                 ++ flat_map read_bit_events bits ++ [DigitalWrite ds_CEpin HIGH]))
      with (run_lines (Lines LOW HIGH HIGH INPUT)
              (flat_map read_bit_events bits ++ [DigitalWrite ds_CEpin HIGH])).
    rewrite run_lines_reads. reflexivity.
Qed.

Lemma ops_discipline ops s :
  idle s -> exists s', run_lines s (flat_map op_events ops) = Some s' /\ idle s'.
Proof.
  revert s. induction ops as [|o ops IH]; intros s Hs.
  - exists s. split; [reflexivity | exact Hs].
  - cbn [flat_map]. rewrite run_lines_app.
    destruct (op_events_discipline o s Hs) as (s1 & -> & Hs1).
    apply IH, Hs1.
Qed.

Lemma dsReadAndPrintTime_trace w :
  trace (final (dsReadAndPrintTime w))
  = trace w ++ flat_map op_events (read_cycle_ops w).
Proof.
  rewrite dsReadAndPrintTime_unfold.
  now destruct (quiet_dsSerialPrintRegisters (received_registers w)
                  (advance 65 (flat_map op_events (read_cycle_ops w)) "" w))
    as [-> _].
Qed.

Lemma write_cycle_advance year month day dow hours minutes seconds w :
  (dsSendCodes ;; dsWriteRegisters year month day dow hours minutes seconds) w
  = Ret tt
      (advance 1
         (flat_map op_events
            (wake_ops w
               ++ (SendByte <$> dsWriteRegisters_reg year month day dow hours
                                  minutes seconds)))
         "" w).
Proof.
  eapply advance_eq.
  - eapply bind_advance; [apply dsSendCodes_advance|].
    apply dsWriteRegisters_advance.
  - reflexivity.
  - reflexivity.
  - now rewrite flat_map_app.
  - reflexivity.
Qed.

(** The notes of [dsWriteBit] and [dsReadBit] are kept by the two cycles:
    started with the control lines at rest, a read cycle and a write cycle
    (wake sequence, then [dsWriteRegisters]) sample the data line only as an
    input under chip-enable and output-enable, drive it only as an output,
    pulse write-enable only under chip-enable, and leave the control lines
    at rest. *)
Theorem cycles_keep_discipline
    (year month day dow hours minutes seconds : Z) (w : world) (s : lines) :
  idle s ->
  (exists s', run_lines s (issued dsReadAndPrintTime w) = Some s' /\ idle s')
  /\ (exists s',
        run_lines s
          (issued (dsSendCodes ;;
                   dsWriteRegisters year month day dow hours minutes seconds) w)
        = Some s' /\ idle s').
Proof.
  intros Hs. split.
  - unfold issued. rewrite dsReadAndPrintTime_trace, drop_app_length.
    apply ops_discipline, Hs.
  - rewrite (issued_advance _ _ _ _ _ _
               (write_cycle_advance year month day dow hours minutes seconds w)).
    apply ops_discipline, Hs.
Qed.

Lemma cycles_keep_discipline_witness :
  idle (Lines HIGH HIGH HIGH OUTPUT)
  /\ exists s',
       run_lines (Lines HIGH HIGH HIGH OUTPUT)
         (issued dsReadAndPrintTime {| dq_in := []; trace := []; serial := "" |})
       = Some s' /\ idle s'.
Proof.
  assert (Hs : idle (Lines HIGH HIGH HIGH OUTPUT)) by (repeat split).
  split; [exact Hs|].
  exact (proj1 (cycles_keep_discipline 2019 2 3 7 21 27 0
                  {| dq_in := []; trace := []; serial := "" |}
                  (Lines HIGH HIGH HIGH OUTPUT) Hs)).
Defined.

(** [dsReadBit] and [dsWriteBit] do not assert chip-enable themselves: with
    the control lines at rest either of them alone breaks the discipline,
    so the notes on them are real obligations of their callers. *)
Theorem bit_operations_need_chip_enable (b : bool) (w : world) (s : lines) :
  idle s ->
  run_lines s (issued dsReadBit w) = None
  /\ run_lines s (issued (dsWriteBit b) w) = None.
Proof.
  destruct s as [ce oe we dq]. intros (Hce & Hoe & Hwe). simpl in *. subst.
  rewrite (issued_advance _ _ _ _ _ _ (dsReadBit_advance w)).
  rewrite (issued_advance _ _ _ _ _ _ (dsWriteBit_advance b w)).
  split; [reflexivity|]. destruct dq; reflexivity.
Qed.

Lemma bit_operations_need_chip_enable_witness :
  idle (Lines HIGH HIGH HIGH INPUT)
  /\ run_lines (Lines HIGH HIGH HIGH INPUT)
       (issued dsReadBit {| dq_in := [HIGH]; trace := []; serial := "" |})
     = None.
Proof.
  assert (Hs : idle (Lines HIGH HIGH HIGH INPUT)) by (repeat split).
  split; [exact Hs|].
  exact (proj1 (bit_operations_need_chip_enable true
                  {| dq_in := [HIGH]; trace := []; serial := "" |}
                  (Lines HIGH HIGH HIGH INPUT) Hs)).
Defined.

(** ** The sketch as a whole *)

Lemma setup_advance w :
  setup w
  = Ret tt
      (advance 0
         [PinMode ds_CEpin OUTPUT; PinMode ds_OEpin OUTPUT; PinMode ds_WEpin OUTPUT;
          DigitalWrite ds_CEpin HIGH; DigitalWrite ds_OEpin HIGH;
          DigitalWrite ds_WEpin HIGH; PinMode dsDQ0pin OUTPUT]
         ("Starting DS1216." ++ CRLF) w).
Proof.
  unfold setup, Serial_begin, delay, Serial_println. run_body; reflexivity.
Qed.

Lemma transports_ret {A} (a : A) : transports (ret a).
Proof. intros w. exists []. simpl. now rewrite app_nil_r. Qed.

Lemma transports_bind {A B} (c : M A) (f : A -> M B) :
  transports c -> (forall a, transports (f a)) -> transports (bind c f).
Proof.
  intros Hc Hf w. destruct (Hc w) as [ops1 H1]. unfold bind.
  destruct (c w) as [a w1|w1]; simpl in H1.
  - destruct (Hf a w1) as [ops2 H2]. exists (ops1 ++ ops2).
    now rewrite H2, H1, flat_map_app, app_assoc.
  - exists ops1. exact H1.
Qed.

Lemma transports_dsReadAndPrintTime : transports dsReadAndPrintTime.
Proof. intros w. exists (read_cycle_ops w). apply dsReadAndPrintTime_trace. Qed.

Lemma transports_loop : transports loop.
Proof.
  unfold loop. apply transports_bind; [apply transports_dsReadAndPrintTime|].
  intros _. apply transports_ret.
Qed.

Lemma transports_loops n : transports (loops n).
Proof.
  induction n as [|n IH]; [apply transports_ret|].
  cbn [loops]. apply transports_bind; [apply transports_loop | intros _; exact IH].
Qed.

(** Whatever state the lines are in at power-up, [setup] puts the three
    control lines at rest with the data line an output, and any number of
    rounds of [loop] after it keeps the discipline of the lines and leaves
    the control lines at rest, also when a round stops in the printing. *)
Theorem sketch_keeps_discipline (n : nat) (w : world) (s : lines) :
  run_lines s (issued setup w) = Some (Lines HIGH HIGH HIGH OUTPUT)
  /\ exists s', run_lines s (issued (setup ;; loops n) w) = Some s' /\ idle s'.
Proof.
  assert (Hsetup : forall evs w1,
             evs = issued setup w1 ->
             run_lines s evs = Some (Lines HIGH HIGH HIGH OUTPUT)).
  { intros evs w1 ->.
    rewrite (issued_advance _ _ _ _ _ _ (setup_advance w1)). reflexivity. }
  split; [apply (Hsetup _ w eq_refl)|].
  unfold issued, bind. rewrite setup_advance.
  destruct (transports_loops n
              (advance 0
                 [PinMode ds_CEpin OUTPUT; PinMode ds_OEpin OUTPUT;
                  PinMode ds_WEpin OUTPUT; DigitalWrite ds_CEpin HIGH;
                  DigitalWrite ds_OEpin HIGH; DigitalWrite ds_WEpin HIGH;
                  PinMode dsDQ0pin OUTPUT]
                 ("Starting DS1216." ++ CRLF) w)) as [ops ->].
  cbn [trace advance]. rewrite <- app_assoc, drop_app_length, run_lines_app.
  change (run_lines s _) with (Some (Lines HIGH HIGH HIGH OUTPUT)) at 1.
  apply ops_discipline. repeat split.
Qed.

(** ** The registers written *)

Lemma control_bits_clear dow hours :
  0 <= dow <= 7 -> 0 <= hours <= 23 ->
  Z.land (decimal2BCD dow) ds_OSCbit = 0
  /\ Z.land (decimal2BCD hours) ds1224bit = 0.
Proof.
  intros Hd Hh. split.
  - pose proof (byte_forallb
      (fun d => implb (d <=? 7) (Z.land (decimal2BCD d) ds_OSCbit =? 0))
      ltac:(vm_compute; reflexivity) dow ltac:(unfold is_byte; lia)) as H.
    cbv beta in H. rewrite (proj2 (Z.leb_le dow 7)) in H by lia.
    now apply Z.eqb_eq in H.
  - pose proof (byte_forallb
      (fun h => implb (h <=? 23) (Z.land (decimal2BCD h) ds1224bit =? 0))
      ltac:(vm_compute; reflexivity) hours ltac:(unfold is_byte; lia)) as H.
    cbv beta in H. rewrite (proj2 (Z.leb_le hours 23)) in H by lia.
    now apply Z.eqb_eq in H.
Qed.

(** For arguments in the documented ranges (and any non-negative year)
    every register [dsWriteRegisters] writes is packed BCD, the oscillator
    bit of the day register is 0, so the oscillator runs, and the 12/24 bit
    of the hour register is 0, so the clock is in 24-hour mode. *)
Theorem dsWriteRegisters_reg_valid
    (year month day dow hours minutes seconds : Z) :
  0 <= year -> 1 <= month <= 12 -> 1 <= day <= 31 -> 1 <= dow <= 7 ->
  0 <= hours <= 23 -> 0 <= minutes <= 59 -> 0 <= seconds <= 59 ->
  let reg := dsWriteRegisters_reg year month day dow hours minutes seconds in
  Forall valid_bcd reg
  /\ Z.land (reg_at reg dsDayRegister) ds_OSCbit = 0
  /\ Z.land (reg_at reg dsHourRegister) ds1224bit = 0.
Proof.
  intros Hy Hmo Hda Hdw Hh Hmi Hs reg. unfold reg.
  rewrite dsWriteRegisters_reg_slots.
  destruct (control_bits_clear dow hours) as [Hosc H24]; [lia | lia |].
  split; [|split; assumption].
  assert (Hyr : 0 <= to_byte (Z.rem year 100) <= 99).
  { rewrite Z.rem_mod_nonneg by lia.
    assert (0 <= year mod 100 < 100) by (apply Z.mod_pos_bound; lia).
    rewrite to_byte_small by (unfold is_byte; lia). lia. }
  repeat match goal with
         | |- Forall _ (_ :: _) => constructor
         | |- Forall _ [] => constructor
         end;
    try (apply decimal2BCD_valid; lia).
  change (valid_bcd (decimal2BCD 0)). apply decimal2BCD_valid. lia.
Qed.

Lemma dsWriteRegisters_reg_valid_witness :
  0 <= 2019
  /\ Forall valid_bcd (dsWriteRegisters_reg 2019 2 3 7 21 27 0)
  /\ Z.land (reg_at (dsWriteRegisters_reg 2019 2 3 7 21 27 0) dsDayRegister)
       ds_OSCbit = 0
  /\ Z.land (reg_at (dsWriteRegisters_reg 2019 2 3 7 21 27 0) dsHourRegister)
       ds1224bit = 0.
Proof.
  split; [lia|].
  apply (dsWriteRegisters_reg_valid 2019 2 3 7 21 27 0); lia.
Defined.

(** ** What a read cycle writes *)

Lemma latched_reads dq bits rest :
  latched_from dq (flat_map read_bit_events bits ++ rest) = latched_from dq rest.
Proof. induction bits as [|v bits IH]; [reflexivity | exact IH]. Qed.

Lemma latched_ReceiveByte dq bits rest :
  latched_from dq (op_events (ReceiveByte bits) ++ rest) = latched_from dq rest.
Proof.
  unfold op_events. rewrite <- !app_assoc.
  change (latched_from dq
            ([PinMode dsDQ0pin INPUT; DigitalWrite ds_CEpin LOW]
               ++ flat_map read_bit_events bits
               ++ [DigitalWrite ds_CEpin HIGH] ++ rest))
    with (latched_from dq
            (flat_map read_bit_events bits ++ [DigitalWrite ds_CEpin HIGH] ++ rest)).
  now rewrite latched_reads.
Qed.

Lemma latched_receives dq (l : list (list level)) :
  latched_from dq (flat_map op_events (ReceiveByte <$> l)) = [].
Proof.
  induction l as [|bits l IH]; [reflexivity|].
  cbn [fmap list_fmap flat_map]. now rewrite latched_ReceiveByte.
Qed.

Lemma latched_wake dq w rest :
  latched_from dq (flat_map op_events (wake_ops w) ++ rest)
  = flat_map bits_of_byte WakeCode ++ latched_from LOW rest.
Proof. reflexivity. Qed.

(** The wake sequence presents to the chip exactly the 64 bits of the key,
    each byte least significant bit first, whatever its bit read returns;
    the rest of a read cycle latches nothing, so a read cycle never writes
    to the registers of the clock. *)
Theorem read_cycle_latches_only_key (dq : level) (w : world) :
  latched_from dq (issued dsSendCodes w) = flat_map bits_of_byte WakeCode
  /\ latched_from dq (issued dsReadAndPrintTime w) = flat_map bits_of_byte WakeCode
  /\ length (flat_map bits_of_byte WakeCode) = 64%nat.
Proof.
  split; [|split; [|reflexivity]].
  - rewrite (issued_advance _ _ _ _ _ _ (dsSendCodes_advance w)).
    rewrite <- (app_nil_r (flat_map op_events (wake_ops w))), latched_wake.
    apply app_nil_r.
  - unfold issued. rewrite dsReadAndPrintTime_trace, drop_app_length.
    unfold read_cycle_ops. rewrite flat_map_app, latched_wake.
    change ((fun i => ReceiveByte (register_bits w i)) <$> seq 0 8)
      with (ReceiveByte <$> (register_bits w <$> seq 0 8)).
    rewrite latched_receives. apply app_nil_r.
Qed.
